(** * cs-case-simulator: the server actions of [src/lib/actions.ts]

    A shallow embedding of the server actions (case unboxing, persistence
    of unboxing events, history queries and the visitor cookie) together
    with the properties the specification states about them.

    Conventions of the embedding
    - JavaScript strings are [string]; only code units below 256 occur.
    - A server action is an [Action]: a function of the [World] (cookie
      jar, [items] table, console, promises handed to [waitUntil], ...)
      returning an [Outcome] (a value or a thrown exception) and the new
      world.  [await] of a call is sequencing; the one promise that is not
      awaited (the argument of [waitUntil]) is kept in the world.
    - What the module imports and this file cannot see (the catalog, the
      item-selection helper, the failures of the database driver, the
      entropy of [crypto.randomUUID]) is a [Variable] of the section
      [Actions]. *)

From Stdlib Require Import ZArith NArith Ascii String List Lia.
From stdpp Require Import base option list strings gmap sorting.

Local Open Scope string_scope.
Local Open Scope Z_scope.

(* ===================================================================== *)
(** ** Regular expressions of the shape used by the source

    The only regular expression of the module is
    [/^[0-9a-f]{8}-[0-9a-f]{4}-[0-5][0-9a-f]{3}-[089ab][0-9a-f]{3}-[0-9a-f]{12}$/i]:
    an anchored sequence of atoms, each with a fixed repetition count. *)

Module Regex.

(** A bracket expression, as the list of its ranges ([x] alone is the
    range [x-x]). *)
Definition Class := list (ascii * ascii).

Inductive Atom :=
| Lit (c : ascii)
| OneOf (cls : Class).

(** [^ a1{n1} a2{n2} ... $], with the [i] flag or without. *)
Record Pattern := {
  atoms : list (Atom * nat);
  ignoreCase : bool
}.

Definition code (c : ascii) : N := N_of_ascii c.

(** Canonicalize of the [i] flag (no [u] flag): the upper-case form. *)
Definition canonicalize (c : ascii) : ascii :=
  if ((code "a" <=? code c) && (code c <=? code "z"))%N
  then ascii_of_N (code c - 32)
  else c.

Definition same_char (i : bool) (a b : ascii) : bool :=
  if i then Ascii.eqb (canonicalize a) (canonicalize b) else Ascii.eqb a b.

(** The members of a range, in order. *)
Definition members (r : ascii * ascii) : list ascii :=
  (fun k => ascii_of_N (code (fst r) + N.of_nat k)%N)
    <$> seq 0 (N.to_nat (code (snd r) + 1 - code (fst r))).

Definition class_matches (i : bool) (cls : Class) (c : ascii) : bool :=
  existsb (fun r => existsb (fun m => same_char i m c) (members r)) cls.

Definition atom_matches (i : bool) (a : Atom) (c : ascii) : bool :=
  match a with
  | Lit l => same_char i l c
  | OneOf cls => class_matches i cls c
  end.

(** [a{n}] at the head of [s]: the rest of the input, when it matches. *)
Fixpoint repeat_match (i : bool) (a : Atom) (n : nat) (s : list ascii)
  : option (list ascii) :=
  match n with
  | O => Some s
  | S n' =>
      match s with
      | c :: s' => if atom_matches i a c then repeat_match i a n' s' else None
      | [] => None
      end
  end.

Fixpoint match_atoms (i : bool) (p : list (Atom * nat)) (s : list ascii) : bool :=
  match p with
  | [] => match s with [] => true | _ => false end
  | (a, n) :: p' =>
      match repeat_match i a n s with
      | Some rest => match_atoms i p' rest
      | None => false
      end
  end.

(** [RegExp.prototype.test]. *)
Definition test (p : Pattern) (s : string) : bool :=
  match_atoms (ignoreCase p) (atoms p) (list_ascii_of_string s).

End Regex.

(** The bracket expressions of the source. *)
Definition hex_class : Regex.Class := [("0", "9"); ("a", "f")]%char.
Definition version_class : Regex.Class := [("0", "5")]%char.
Definition variant_class : Regex.Class :=
  [("0", "0"); ("8", "8"); ("9", "9"); ("a", "a"); ("b", "b")]%char.

Definition uuid_regex : Regex.Pattern :=
  {| Regex.atoms :=
       [ (Regex.OneOf hex_class, 8%nat); (Regex.Lit "-", 1%nat);
         (Regex.OneOf hex_class, 4%nat); (Regex.Lit "-", 1%nat);
         (Regex.OneOf version_class, 1%nat); (Regex.OneOf hex_class, 3%nat);
         (Regex.Lit "-", 1%nat);
         (Regex.OneOf variant_class, 1%nat); (Regex.OneOf hex_class, 3%nat);
         (Regex.Lit "-", 1%nat);
         (Regex.OneOf hex_class, 12%nat) ];
     Regex.ignoreCase := true |}.

(** [isValidUUID] of [getOrCreateUnboxerIdCookie]. *)
Definition isValidUUID (value : string) : bool := Regex.test uuid_regex value.

(* ===================================================================== *)
(** ** [crypto.randomUUID]

    The platform function, after RFC 4122 section 4.4: sixteen random
    octets, the version nibble forced to 4 and the two variant bits to
    [10], printed in lower-case hexadecimal as 8-4-4-4-12.  The sixteen
    octets are the low 128 bits of the entropy [r]. *)

Module Crypto.

Definition octet (r : N) (k : nat) : N :=
  N.land (N.shiftr r (8 * N.of_nat k)) 255.

Definition octets (r : N) : list N := octet r <$> seq 0 16.

Definition set_version (b : N) : N := N.lor (N.land b 15) 64.
Definition set_variant (b : N) : N := N.lor (N.land b 63) 128.

Definition stamp (bs : list N) : list N :=
  alter set_variant 8%nat (alter set_version 6%nat bs).

Definition hex_digit (n : N) : ascii :=
  nth (N.to_nat n) (list_ascii_of_string "0123456789abcdef") "0"%char.

Definition hex_octet (b : N) : list ascii :=
  [hex_digit (N.shiftr b 4); hex_digit (N.land b 15)].

Definition hex (bs : list N) : list ascii := bs ≫= hex_octet.

Definition format (bs : list N) : string :=
  string_of_list_ascii
    (hex (take 4 bs) ++ "-"%char ::
     hex (take 2 (drop 4 bs)) ++ "-"%char ::
     hex (take 2 (drop 6 bs)) ++ "-"%char ::
     hex (take 2 (drop 8 bs)) ++ "-"%char ::
     hex (take 6 (drop 10 bs))).

Definition randomUUID (r : N) : string := format (stamp (octets r)).

End Crypto.

(* ===================================================================== *)
(** ** Data model *)

(** A property typed [T | null] that may also be missing ([p?: T | null]). *)
Inductive Nullish (A : Type) :=
| Undefined
| Null
| Defined (a : A).
Arguments Undefined {A}.
Arguments Null {A}.
Arguments Defined {A} a.

(** [x ?? d] *)
Definition coalesce {A} (x d : Nullish A) : Nullish A :=
  match x with
  | Defined a => Defined a
  | Undefined | Null => d
  end.

(** A result typed [T | false]. *)
Inductive OrFalse (A : Type) :=
| Value (a : A)
| JsFalse.
Arguments Value {A} a.
Arguments JsFalse {A}.

(** [ItemType]: the fields the module reads. *)
Record Rarity := { rarity_name : string }.

Record ItemType := {
  item_id : string;
  item_name : string;
  item_rarity : Rarity;
  item_phase : Nullish string;
  item_image : string
}.

(** The case fields the module reads: [{ id, name, image }]. *)
Record CaseInfo := {
  case_id : string;
  case_name : string;
  case_image : string
}.

(** One element of the argument of [addItemsToDB]. *)
Record Payload := {
  caseData : CaseInfo;
  itemData : ItemType
}.

(** A row of the [items] table ([ItemTypeDB]); [row_id] is the
    auto-incremented primary key [id], [phase] the one nullable column. *)
Record ItemTypeDB := {
  row_id : Z;
  caseId : string;
  caseName : string;
  caseImage : string;
  itemId : string;
  itemName : string;
  rarity : string;
  phase : option string;
  itemImage : string;
  unboxerId : string
}.

(** The object given to [db.insert(items).values]. *)
Record InsertValues := {
  v_caseId : string;
  v_caseName : string;
  v_caseImage : string;
  v_itemId : string;
  v_itemName : string;
  v_rarity : string;
  v_phase : Nullish string;
  v_itemImage : string;
  v_unboxerId : string
}.

(** A cookie of the jar behind [cookies()]; a cookie of the request has
    no attributes. *)
Record Cookie := {
  value : string;
  expires : option Z;
  httpOnly : bool
}.

(** The promise of an [addItemToDB] call that nobody awaits: already
    resolved (validation failed), or suspended at its first [await] with
    the values it will insert. *)
Inductive Promise :=
| Resolved (b : bool)
| Suspended (values : InsertValues).

Record World := {
  jar : gmap string Cookie;        (* cookies() *)
  table : list ItemTypeDB;         (* the rows of items, in storage order *)
  serial : Z;                      (* next value of the id sequence *)
  console : list string;           (* console.error, oldest first *)
  background : list Promise;       (* waitUntil, oldest first *)
  clock : Z;                       (* Date.now() *)
  uuid_draws : nat;                (* calls of crypto.randomUUID so far *)
  db_calls : nat;                  (* statements sent to the database so far *)
  rolls : nat                      (* position on the tape of Math.random *)
}.

Definition with_jar (j : gmap string Cookie) (w : World) : World :=
  {| jar := j; table := table w; serial := serial w; console := console w;
     background := background w; clock := clock w;
     uuid_draws := uuid_draws w; db_calls := db_calls w; rolls := rolls w |}.

Definition with_rows (t : list ItemTypeDB) (s : Z) (w : World) : World :=
  {| jar := jar w; table := t; serial := s; console := console w;
     background := background w; clock := clock w;
     uuid_draws := uuid_draws w; db_calls := db_calls w; rolls := rolls w |}.

Definition with_console (c : list string) (w : World) : World :=
  {| jar := jar w; table := table w; serial := serial w; console := c;
     background := background w; clock := clock w;
     uuid_draws := uuid_draws w; db_calls := db_calls w; rolls := rolls w |}.

Definition with_background (b : list Promise) (w : World) : World :=
  {| jar := jar w; table := table w; serial := serial w; console := console w;
     background := b; clock := clock w;
     uuid_draws := uuid_draws w; db_calls := db_calls w; rolls := rolls w |}.

Definition with_uuid_draws (n : nat) (w : World) : World :=
  {| jar := jar w; table := table w; serial := serial w; console := console w;
     background := background w; clock := clock w;
     uuid_draws := n; db_calls := db_calls w; rolls := rolls w |}.

Definition with_db_calls (n : nat) (w : World) : World :=
  {| jar := jar w; table := table w; serial := serial w; console := console w;
     background := background w; clock := clock w;
     uuid_draws := uuid_draws w; db_calls := n; rolls := rolls w |}.

Definition with_rolls (n : nat) (w : World) : World :=
  {| jar := jar w; table := table w; serial := serial w; console := console w;
     background := background w; clock := clock w;
     uuid_draws := uuid_draws w; db_calls := db_calls w; rolls := n |}.

(* ===================================================================== *)
(** ** Actions: state and exceptions *)

Inductive Exn :=
| DriverError        (* the database driver rejected the statement *)
| EmptyValues        (* drizzle: values() called with no value *)
| TypeError.         (* a property read on undefined *)

Inductive Outcome (A : Type) :=
| Ret (a : A)
| Throw (e : Exn).
Arguments Ret {A} a.
Arguments Throw {A} e.

Definition Action (A : Type) : Type := World -> Outcome A * World.

Definition ret {A} (a : A) : Action A := fun w => (Ret a, w).

Definition throw {A} (e : Exn) : Action A := fun w => (Throw e, w).

Definition bind {A B} (m : Action A) (k : A -> Action B) : Action B :=
  fun w =>
    match m w with
    | (Ret a, w') => k a w'
    | (Throw e, w') => (Throw e, w')
    end.

(** [try { body } catch (error) { handler }] *)
Definition try_catch {A} (body : Action A) (handler : Exn -> Action A) : Action A :=
  fun w =>
    match body w with
    | (Ret a, w') => (Ret a, w')
    | (Throw e, w') => handler e w'
    end.

Declare Scope action_scope.
Delimit Scope action_scope with action.
Notation "x <- m ;; k" := (bind m (fun x => k))
  (at level 100, m at next level, right associativity) : action_scope.
Notation "m ;;; k" := (bind m (fun _ => k))
  (at level 100, right associativity) : action_scope.
Local Open Scope action_scope.

Definition returned {A} (o : Outcome A) : Prop :=
  match o with
  | Ret _ => True
  | Throw _ => False
  end.

(** *** The platform *)

Definition console_error (msg : string) : Action unit :=
  fun w => (Ret tt, with_console (console w ++ [msg]) w).

Definition cookies_get (name : string) : Action (option Cookie) :=
  fun w => (Ret (jar w !! name), w).

Definition cookies_set (name : string) (c : Cookie) : Action unit :=
  fun w => (Ret tt, with_jar (<[name := c]> (jar w)) w).

Definition Date_now : Action Z :=
  fun w => (Ret (clock w), w).

Definition waitUntil (p : Promise) : Action unit :=
  fun w => (Ret tt, with_background (background w ++ [p]) w).

(** [String.prototype.startsWith] *)
Definition startsWith (s prefix : string) : bool := String.prefix prefix s.

(* ===================================================================== *)
(** ** The query layer (drizzle-orm over the [items] table) *)

(** The text columns the module filters on. *)
Inductive Column :=
| items_rarity
| items_unboxerId.

Definition column (c : Column) (r : ItemTypeDB) : string :=
  match c with
  | items_rarity => rarity r
  | items_unboxerId => unboxerId r
  end.

Inductive SQL :=
| InArray (c : Column) (values : list string)
| Eq (c : Column) (v : string)
| And (a b : SQL).

Fixpoint holds (q : SQL) (r : ItemTypeDB) : bool :=
  match q with
  | InArray c values => existsb (String.eqb (column c r)) values
  | Eq c v => String.eqb (column c r) v
  | And a b => holds a r && holds b r
  end.

(** [and(a, b)]: undefined conditions are dropped, and nothing is left
    of [and(undefined, undefined)]. *)
Definition and_ (a b : option SQL) : option SQL :=
  match a, b with
  | Some x, Some y => Some (And x y)
  | Some x, None => Some x
  | None, Some y => Some y
  | None, None => None
  end.

(** [.where(cond)]; [where(undefined)] keeps every row. *)
Definition where_ (cond : option SQL) (r : ItemTypeDB) : bool :=
  match cond with
  | Some q => holds q r
  | None => true
  end.

(** [desc(items.id)] *)
Definition desc_id (a b : ItemTypeDB) : Prop := row_id b <= row_id a.

#[global] Instance desc_id_dec : RelDecision desc_id.
Proof. intros a b. unfold desc_id. apply _. Defined.

(** [select().from(items).where(cond).orderBy(desc(items.id)).limit(n)] *)
Definition select_rows (cond : option SQL) (n : nat) (t : list ItemTypeDB)
  : list ItemTypeDB :=
  take n (merge_sort desc_id (filter (fun r => where_ cond r) t)).

(** The selected field of the totals query. *)
Inductive Field :=
| count
| max_id.

(** SQL [MAX]: null over no row. *)
Definition sql_max (l : list Z) : option Z :=
  match l with
  | [] => None
  | x :: l' => Some (foldr Z.max x l')
  end.

(** [select({ value: field }).from(items).where(cond)]: one result row. *)
Definition select_value (f : Field) (cond : option SQL) (t : list ItemTypeDB)
  : list (option Z) :=
  let hits := filter (fun r => where_ cond r) t in
  match f with
  | count => [Some (Z.of_nat (length hits))]
  | max_id => [sql_max (row_id <$> hits)]
  end.

(** What the table stores for inserted values: a missing [phase] takes the
    column default, which is null. *)
Definition stored_phase (p : Nullish string) : option string :=
  match p with
  | Defined s => Some s
  | Undefined | Null => None
  end.

Definition store (i : Z) (v : InsertValues) : ItemTypeDB :=
  {| row_id := i;
     caseId := v_caseId v; caseName := v_caseName v; caseImage := v_caseImage v;
     itemId := v_itemId v; itemName := v_itemName v; rarity := v_rarity v;
     phase := stored_phase (v_phase v);
     itemImage := v_itemImage v; unboxerId := v_unboxerId v |}.

(** The rows of one insert statement take consecutive ids. *)
Fixpoint number_rows (next : Z) (vs : list InsertValues) : list ItemTypeDB :=
  match vs with
  | [] => []
  | v :: vs' => store next v :: number_rows (next + 1) vs'
  end.

(* ===================================================================== *)
(** ** The validation schema ([zod]) *)

(** [z.string()]: every value of the TypeScript type [string] passes. *)
Definition z_string (s : string) : bool := true.

(** [z.string().optional().nullable()] *)
Definition z_string_optional_nullable (p : Nullish string) : bool :=
  match p with
  | Undefined | Null => true
  | Defined s => z_string s
  end.

(** The refinement of both [image] fields. *)
Definition trusted_image (url : string) : bool :=
  startsWith url "https://raw.githubusercontent.com/ByMykel"
  || startsWith url "https://steamcdn-a.akamaihd.net/apps/730/icons".

Definition z_image (url : string) : bool := z_string url && trusted_image url.

Definition caseData_schema (c : CaseInfo) : bool :=
  z_string (case_id c) && z_string (case_name c) && z_image (case_image c).

Definition itemData_schema (i : ItemType) : bool :=
  z_string (item_id i) && z_string (item_name i)
  && z_string (rarity_name (item_rarity i))
  && z_string_optional_nullable (item_phase i)
  && z_image (item_image i).

Definition dataSchema (p : Payload) : bool :=
  caseData_schema (caseData p) && itemData_schema (itemData p).

(** [z.array(schema)] *)
Definition z_array {A} (schema : A -> bool) (l : list A) : bool := forallb schema l.

(** [schema.safeParse(x).success] *)
Definition safeParse {A} (schema : A -> bool) (x : A) : bool := schema x.

(** Truthiness of an optional boolean argument. *)
Definition truthy (flag : option bool) : bool :=
  match flag with
  | Some true => true
  | Some false | None => false
  end.

(** [itemIsCovert] and [itemIsPersonal] *)
Definition itemIsCovert : SQL := InArray items_rarity ["Covert"; "Extraordinary"].
Definition itemIsPersonal (id : string) : SQL := Eq items_unboxerId id.

(* ===================================================================== *)
(** ** A small catalog and a few worlds, to run the actions on *)

Module Sample.

Record Crate := {
  info : CaseInfo;
  contains : list ItemType
}.

Definition redline : ItemType :=
  {| item_id := "skin-65604";
     item_name := "AK-47 | Redline";
     item_rarity := {| rarity_name := "Classified" |};
     item_phase := Undefined;
     item_image := "https://raw.githubusercontent.com/ByMykel/CSGO-API/main/redline.png" |}.

Definition doppler : ItemType :=
  {| item_id := "skin-33269080";
     item_name := "Karambit | Doppler";
     item_rarity := {| rarity_name := "Covert" |};
     item_phase := Defined "Phase 2";
     item_image := "https://steamcdn-a.akamaihd.net/apps/730/icons/doppler.png" |}.

Definition gloves : ItemType :=
  {| item_id := "skin-5030";
     item_name := "Sport Gloves | Vice";
     item_rarity := {| rarity_name := "Extraordinary" |};
     item_phase := Null;
     item_image := "https://raw.githubusercontent.com/ByMykel/CSGO-API/main/vice.png" |}.

(** An item whose image is served from somewhere else. *)
Definition forged : ItemType :=
  {| item_id := "skin-1";
     item_name := "Forged";
     item_rarity := {| rarity_name := "Covert" |};
     item_phase := Null;
     item_image := "https://example.com/forged.png" |}.

Definition bravo : Crate :=
  {| info := {| case_id := "crate-4001";
                case_name := "Operation Bravo Case";
                case_image := "https://raw.githubusercontent.com/ByMykel/CSGO-API/main/bravo.png" |};
     contains := [redline; doppler; gloves] |}.

Definition custom : Crate :=
  {| info := {| case_id := "crate-custom-dopplers";
                case_name := "Doppler Case";
                case_image := "https://raw.githubusercontent.com/ByMykel/CSGO-API/main/custom.png" |};
     contains := [doppler] |}.

Definition catalog : list Crate := [bravo; custom].

(** A helper that walks through the items of the case. *)
Definition pick (c : Crate) (pos : nat) : ItemType * nat :=
  (nth (pos mod length (contains c)) (contains c) redline, S pos).

Definition entropy (n : nat) : N :=
  (N.of_nat (S n) * 0x9e3779b97f4a7c15f39cc0605cedc835)%N.

Definition reliable (n : nat) : bool := false.
Definition broken (n : nat) : bool := true.

Definition visitor : string := "01234567-89ab-4cde-8f01-23456789abcd".
Definition stranger : string := "76543210-89ab-4cde-8f01-23456789abcd".

Definition row (i : Z) (r who : string) : ItemTypeDB :=
  {| row_id := i;
     caseId := "crate-4001"; caseName := "Operation Bravo Case";
     caseImage := "https://raw.githubusercontent.com/ByMykel/CSGO-API/main/bravo.png";
     itemId := "skin-1"; itemName := "Some item"; rarity := r; phase := None;
     itemImage := "https://raw.githubusercontent.com/ByMykel/CSGO-API/main/item.png";
     unboxerId := who |}.

(** A first visit: no cookie, nothing stored. *)
Definition blank : World :=
  {| jar := {[ "theme" := {| value := "dark"; expires := None; httpOnly := false |} ]};
     table := []; serial := 1; console := []; background := [];
     clock := 1700000000000; uuid_draws := 0; db_calls := 0; rolls := 0 |}.

Definition cookie_of (v : string) : Cookie :=
  {| value := v; expires := None; httpOnly := false |}.

(** A returning visitor and four stored rows, not stored in id order. *)
Definition returning : World :=
  {| jar := {[ "unboxerId" := cookie_of visitor ]};
     table := [ row 2 "Covert" visitor; row 4 "Classified" visitor;
                row 1 "Extraordinary" stranger; row 3 "Covert" stranger ];
     serial := 5; console := []; background := [];
     clock := 1700000000000; uuid_draws := 0; db_calls := 0; rolls := 1 |}.

(** A visitor whose cookie was tampered with. *)
Definition tampered : World :=
  {| jar := {[ "unboxerId" := cookie_of "01234567-89ab-6cde-8f01-23456789abcd" ]};
     table := []; serial := 1; console := []; background := [];
     clock := 1700000000000; uuid_draws := 0; db_calls := 0; rolls := 0 |}.

End Sample.

(* ===================================================================== *)
(** ** A catalog with a case whose item is served from elsewhere *)

Module Counterfeit.

Definition shady : Sample.Crate :=
  {| Sample.info :=
       {| case_id := "crate-7";
          case_name := "Shady Case";
          case_image := "https://raw.githubusercontent.com/ByMykel/CSGO-API/main/shady.png" |};
     Sample.contains := [Sample.forged] |}.

Definition catalog : list Sample.Crate := [Sample.bravo; shady].

End Counterfeit.

(* ===================================================================== *)
(** ** The server actions *)

Section Actions.

(** [CaseDataType] of [@/types]: whatever a catalog entry holds, it has
    the three fields this module reads. *)
Context {CaseDataType : Type}.
Variable caseInfo : CaseDataType -> CaseInfo.

(** [casesData]: the three bundled catalogs, concatenated. *)
Variable casesData : list CaseDataType.

(** [getItem] of [@/utils/getItem]: draws an item of the case from the
    tape of random numbers at the given position, and moves on. *)
Variable getItem : CaseDataType -> nat -> ItemType * nat.

(** The entropy of the n-th call of [crypto.randomUUID]. *)
Variable entropy : nat -> N.

(** Whether the driver rejects the n-th statement (connection lost,
    constraint violated, ...). *)
Variable db_throws : nat -> bool.

Definition crypto_randomUUID : Action string :=
  fun w => (Ret (Crypto.randomUUID (entropy (uuid_draws w))),
            with_uuid_draws (S (uuid_draws w)) w).

Definition Math_random_getItem (c : CaseDataType) : Action ItemType :=
  fun w => let (item, pos) := getItem c (rolls w) in (Ret item, with_rolls pos w).

(** One statement sent to the database. *)
Definition statement {A} (run : World -> A * World) : Action A :=
  fun w =>
    let w1 := with_db_calls (S (db_calls w)) w in
    if db_throws (db_calls w) then (Throw DriverError, w1)
    else let (a, w2) := run w1 in (Ret a, w2).

Definition db_insert (vs : list InsertValues) : Action unit :=
  match vs with
  | [] => throw EmptyValues
  | _ :: _ =>
      statement (fun w =>
        (tt, with_rows (table w ++ number_rows (serial w) vs)
                       (serial w + Z.of_nat (length vs)) w))
  end.

Definition db_select (cond : option SQL) (limit : nat) : Action (list ItemTypeDB) :=
  statement (fun w => (select_rows cond limit (table w), w)).

Definition db_select_value (f : Field) (cond : option SQL) : Action (list (option Z)) :=
  statement (fun w => (select_value f cond (table w), w)).

(** [getOrCreateUnboxerIdCookie] *)
Definition getOrCreateUnboxerIdCookie : Action string :=
  existingUnboxerId <- cookies_get "unboxerId" ;;
  let fresh : Action string :=
    newUnboxerId <- crypto_randomUUID ;;
    now <- Date_now ;;
    cookies_set "unboxerId"
      {| value := newUnboxerId;
         expires := Some (now + 1000 * 60 * 60 * 24 * 365);
         httpOnly := true |} ;;;
    ret newUnboxerId in
  match existingUnboxerId with
  | Some c => if isValidUUID (value c) then ret (value c) else fresh
  | None => fresh
  end.

(** [addItemToDB] up to its first suspension: the validation and the call
    of [getOrCreateUnboxerIdCookie] run with the caller. *)
Definition addItemToDB_begin (caseData : CaseDataType) (itemData : ItemType)
  : Action Promise :=
  if negb (safeParse dataSchema
             {| caseData := caseInfo caseData; itemData := itemData |})
  then
    console_error "addItemToDB: Error validating data:" ;;;
    ret (Resolved false)
  else
    unboxerId <- getOrCreateUnboxerIdCookie ;;
    ret (Suspended
           {| v_caseId := case_id (caseInfo caseData);
              v_caseName := case_name (caseInfo caseData);
              v_caseImage := case_image (caseInfo caseData);
              v_itemId := item_id itemData;
              v_itemName := item_name itemData;
              v_rarity := rarity_name (item_rarity itemData);
              v_phase := item_phase itemData;
              v_itemImage := item_image itemData;
              v_unboxerId := unboxerId |}).

(** The rest of [addItemToDB], run when the promise is resumed. *)
Definition resume (p : Promise) : Action bool :=
  match p with
  | Resolved b => ret b
  | Suspended values =>
      try_catch
        (db_insert [values] ;;; ret true)
        (fun error => console_error "Error adding item:" ;;; ret false)
  end.

(** [addItemToDB], awaited. *)
Definition addItemToDB (caseData : CaseDataType) (itemData : ItemType) : Action bool :=
  p <- addItemToDB_begin caseData itemData ;;
  resume p.

(** [unboxCase] *)
Definition unboxCase (caseId : string) : Action (OrFalse ItemType) :=
  match find (fun x => String.eqb (case_id (caseInfo x)) caseId) casesData with
  | None =>
      console_error ("unboxCase: Case id " +:+ caseId +:+ " not found") ;;;
      ret JsFalse
  | Some caseData =>
      openedItem <- Math_random_getItem caseData ;;
      (if negb (startsWith (case_id (caseInfo caseData)) "crate-custom")
       then p <- addItemToDB_begin caseData openedItem ;; waitUntil p
       else ret tt) ;;;
      ret (Value openedItem)
  end.

(** The runtime settles what was handed to [waitUntil], oldest first. *)
Fixpoint resume_all (ps : list Promise) : Action (list bool) :=
  match ps with
  | [] => ret []
  | p :: ps' =>
      b <- resume p ;;
      bs <- resume_all ps' ;;
      ret (b :: bs)
  end.

Definition settle_background : Action (list bool) :=
  fun w => resume_all (background w) (with_background [] w).

(** The function mapped over the batch in [addItemsToDB]. *)
Definition batch_values (unboxerId : string) (item : Payload) : InsertValues :=
  {| v_caseId := case_id (caseData item);
     v_caseName := case_name (caseData item);
     v_caseImage := case_image (caseData item);
     v_itemId := item_id (itemData item);
     v_itemName := item_name (itemData item);
     v_rarity := rarity_name (item_rarity (itemData item));
     v_phase := coalesce (item_phase (itemData item)) Null;
     v_itemImage := item_image (itemData item);
     v_unboxerId := unboxerId |}.

(** [addItemsToDB] *)
Definition addItemsToDB (data : list Payload) : Action bool :=
  if negb (safeParse (z_array dataSchema) data)
  then
    console_error "addItemsToDB: Error validating data:" ;;;
    ret false
  else
    unboxerId <- getOrCreateUnboxerIdCookie ;;
    try_catch
      (db_insert (batch_values unboxerId <$> data) ;;;
       ret true)
      (fun error => console_error "Error adding items:" ;;; ret false).

(** The condition of both queries: [and(onlyCoverts ? itemIsCovert :
    undefined, onlyPersonal ? itemIsPersonal(await
    getOrCreateUnboxerIdCookie()) : undefined)]. *)
Definition query_condition (onlyCoverts onlyPersonal : option bool)
  : Action (option SQL) :=
  personal <- (if truthy onlyPersonal
               then id <- getOrCreateUnboxerIdCookie ;; ret (Some (itemIsPersonal id))
               else ret None) ;;
  ret (and_ (if truthy onlyCoverts then Some itemIsCovert else None) personal).

(** [getItemsFromDB] *)
Definition getItemsFromDB (onlyCoverts onlyPersonal : option bool)
  : Action (OrFalse (list ItemTypeDB)) :=
  try_catch
    (cond <- query_condition onlyCoverts onlyPersonal ;;
     rows <- db_select cond 100 ;;
     ret (Value rows))
    (fun error => console_error "Error getting items:" ;;; ret JsFalse).

(** [getTotalItemsFromDB] *)
Definition getTotalItemsFromDB (onlyCoverts onlyPersonal : option bool)
  : Action (OrFalse Z) :=
  try_catch
    (let field := if truthy onlyCoverts || truthy onlyPersonal then count else max_id in
     cond <- query_condition onlyCoverts onlyPersonal ;;
     totalItems <- db_select_value field cond ;;
     match totalItems !! 0%nat with
     | None => throw TypeError
     | Some v => ret (Value (default 0 v))
     end)
    (fun error => console_error "Error getting total items:" ;;; ret JsFalse).


(** *** Notions the properties are stated with *)

(** The cookie that [getOrCreateUnboxerIdCookie] sets when it does not
    reuse one, and the world after it did. *)
Definition fresh_cookie (w : World) : Cookie :=
  {| value := Crypto.randomUUID (entropy (uuid_draws w));
     expires := Some (clock w + 31536000000);
     httpOnly := true |}.

Definition after_fresh (w : World) : World :=
  with_jar (<["unboxerId" := fresh_cookie w]> (jar w))
           (with_uuid_draws (S (uuid_draws w)) w).

(** The identifier of the requester: what [getOrCreateUnboxerIdCookie]
    answers in this world. *)
Definition requester (w : World) : Outcome string :=
  fst (getOrCreateUnboxerIdCookie w).

(** A request served to its end: the action answers, then the runtime
    settles the promises handed to [waitUntil]. *)
Definition served {A} (action : Action A) : Action A :=
  r <- action ;;
  settle_background ;;;
  ret r.

(** The filters of the specification: the high rarities, and the rows of
    one visitor. *)
Definition is_covert (r : ItemTypeDB) : bool :=
  String.eqb (rarity r) "Covert" || String.eqb (rarity r) "Extraordinary".

Definition is_personal (id : string) (r : ItemTypeDB) : bool :=
  String.eqb (unboxerId r) id.

Definition satisfies_filters (onlyCoverts onlyPersonal : option bool)
  (id : string) (r : ItemTypeDB) : bool :=
  (if truthy onlyCoverts then is_covert r else true)
  && (if truthy onlyPersonal then is_personal id r else true).

(** Nothing was written and nothing is left to be written: the table and
    its id sequence are the same, no statement was sent, and no promise
    was handed to [waitUntil]. *)
Definition no_database_write (w w' : World) : Prop :=
  table w' = table w /\ serial w' = serial w
  /\ db_calls w' = db_calls w /\ background w' = background w.

(** A payload with an image from outside the two trusted prefixes. *)
Definition untrusted (p : Payload) : Prop :=
  trusted_image (case_image (caseData p)) = false
  \/ trusted_image (item_image (itemData p)) = false.

(** The catalog entry [unboxCase] opens for an id. *)
Definition lookup_case (caseId : string) : option CaseDataType :=
  find (fun x => String.eqb (case_id (caseInfo x)) caseId) casesData.

(** What the specification says of a row inserted for a payload by the
    visitor [id]. *)
Definition inserted_for (id : string) (p : Payload) (r : ItemTypeDB) : Prop :=
  unboxerId r = id
  /\ phase r = match item_phase (itemData p) with
               | Defined s => Some s
               | Undefined | Null => None
               end.

(** *** Notions for the further properties *)

(** The characters the three bracket expressions accept under the [i]
    flag. *)
Definition is_hex_char (c : ascii) : bool :=
  existsb (Ascii.eqb c) (list_ascii_of_string "0123456789abcdefABCDEF").

Definition is_version_char (c : ascii) : bool :=
  existsb (Ascii.eqb c) (list_ascii_of_string "012345").

Definition is_variant_char (c : ascii) : bool :=
  existsb (Ascii.eqb c) (list_ascii_of_string "089abAB").

(** Five groups of 8, 4, 4, 4 and 12 hexadecimal characters with a dash
    between them; the third group starts with a version character and
    the fourth with a variant character. *)
Definition uuid_shaped (s : string) : Prop :=
  exists (g1 g2 : list ascii) (v : ascii) (g3 : list ascii) (r : ascii)
         (g4 g5 : list ascii),
    list_ascii_of_string s
    = (g1 ++ "-"%char :: g2 ++ "-"%char :: (v :: g3) ++ "-"%char
          :: (r :: g4) ++ "-"%char :: g5)%list
    /\ (length g1 = 8 /\ length g2 = 4 /\ length g3 = 3
        /\ length g4 = 3 /\ length g5 = 12)%nat
    /\ Forall (fun c => is_hex_char c = true) (g1 ++ g2 ++ g3 ++ g4 ++ g5)%list
    /\ is_version_char v = true
    /\ is_variant_char r = true.


(** The row the table holds for a case, an item and a visitor. *)
Definition row_of (i : Z) (c : CaseInfo) (it : ItemType) (visitor : string)
  : ItemTypeDB :=
  {| row_id := i;
     caseId := case_id c; caseName := case_name c; caseImage := case_image c;
     itemId := item_id it; itemName := item_name it;
     rarity := rarity_name (item_rarity it);
     phase := match item_phase it with
              | Defined s => Some s
              | Undefined | Null => None
              end;
     itemImage := item_image it; unboxerId := visitor |}.

(** The id sequence is ahead of the table, and no id is stored twice. *)
Definition ids_fresh (w : World) : Prop :=
  NoDup (row_id <$> table w) /\ (forall r, r ∈ table w -> row_id r < serial w).

(** From [w] to [w'] rows were only appended, with consecutive ids taken
    from the sequence. *)
Definition grows (w w' : World) : Prop :=
  exists new,
    table w' = (table w ++ new)%list
    /\ serial w' = serial w + Z.of_nat (length new)
    /\ row_id <$> new = seqZ (serial w) (Z.of_nat (length new)).

(** The values [addItemToDB] inserts for a case, an item and a visitor. *)
Definition single_values (c : CaseInfo) (it : ItemType) (visitor : string)
  : InsertValues :=
  {| v_caseId := case_id c; v_caseName := case_name c;
     v_caseImage := case_image c; v_itemId := item_id it;
     v_itemName := item_name it; v_rarity := rarity_name (item_rarity it);
     v_phase := item_phase it; v_itemImage := item_image it;
     v_unboxerId := visitor |}.

(* ===================================================================== *)
(** ** Properties *)

(** *** Every identifier of [crypto.randomUUID] passes [isValidUUID] *)

Lemma hex_digit_is_hex (n : N) :
  (n < 16)%N ->
  Regex.atom_matches true (Regex.OneOf hex_class) (Crypto.hex_digit n) = true.
Proof.
  intros Hn.
  destruct n as [|p]; [reflexivity|].
  do 4 (try destruct p as [p|p|]); first [reflexivity | lia].
Qed.

Lemma low_nibble_is_hex (b : N) :
  Regex.atom_matches true (Regex.OneOf hex_class)
    (Crypto.hex_digit (N.land b 15)) = true.
Proof.
  apply hex_digit_is_hex.
  change 15%N with (N.ones 4). rewrite N.land_ones.
  apply N.mod_lt. discriminate.
Qed.

Lemma octet_lt (r : N) (k : nat) : (Crypto.octet r k < 256)%N.
Proof.
  unfold Crypto.octet. change 255%N with (N.ones 8). rewrite N.land_ones.
  apply N.mod_lt. discriminate.
Qed.

Lemma high_nibble_is_hex (r : N) (k : nat) :
  Regex.atom_matches true (Regex.OneOf hex_class)
    (Crypto.hex_digit (N.shiftr (Crypto.octet r k) 4)) = true.
Proof.
  apply hex_digit_is_hex.
  rewrite N.shiftr_div_pow2. change (2 ^ 4)%N with 16%N.
  pose proof (octet_lt r k) as Hlt.
  apply N.Div0.div_lt_upper_bound. lia.
Qed.

Lemma version_nibble (b : N) :
  Regex.atom_matches true (Regex.OneOf version_class)
    (Crypto.hex_digit (N.shiftr (Crypto.set_version b) 4)) = true.
Proof.
  unfold Crypto.set_version.
  assert (Hlt : (N.land b 15 < 16)%N).
  { change 15%N with (N.ones 4). rewrite N.land_ones. apply N.mod_lt. discriminate. }
  destruct (N.land b 15) as [|p]; [reflexivity|].
  do 4 (try destruct p as [p|p|]); first [reflexivity | lia].
Qed.

Lemma variant_nibble (b : N) :
  Regex.atom_matches true (Regex.OneOf variant_class)
    (Crypto.hex_digit (N.shiftr (Crypto.set_variant b) 4)) = true.
Proof.
  unfold Crypto.set_variant.
  assert (Hlt : (N.land b 63 < 64)%N).
  { change 63%N with (N.ones 6). rewrite N.land_ones. apply N.mod_lt. discriminate. }
  destruct (N.land b 63) as [|p]; [reflexivity|].
  do 6 (try destruct p as [p|p|]); first [reflexivity | lia].
Qed.

Lemma dash_matches : Regex.atom_matches true (Regex.Lit "-") "-" = true.
Proof. reflexivity. Qed.

Lemma randomUUID_valid (r : N) : isValidUUID (Crypto.randomUUID r) = true.
Proof.
  unfold isValidUUID, Regex.test, Crypto.randomUUID, Crypto.format.
  rewrite list_ascii_of_string_of_list_ascii.
  cbn -[Crypto.octet Crypto.hex_digit Crypto.set_version Crypto.set_variant
        N.shiftr N.land Regex.atom_matches].
  repeat (first [ rewrite low_nibble_is_hex | rewrite high_nibble_is_hex
                | rewrite version_nibble | rewrite variant_nibble
                | rewrite dash_matches ];
          cbn -[Crypto.octet Crypto.hex_digit Crypto.set_version Crypto.set_variant
                N.shiftr N.land Regex.atom_matches]).
  reflexivity.
Qed.

(** *** The visitor cookie *)

Ltac run :=
  unfold served, settle_background, addItemToDB, addItemToDB_begin, resume,
    db_insert, db_select, db_select_value, statement, crypto_randomUUID,
    Math_random_getItem, cookies_get, cookies_set, Date_now, waitUntil,
    console_error, try_catch, bind, ret, throw, safeParse;
  cbn -[isValidUUID Crypto.randomUUID select_rows select_value dataSchema
        startsWith number_rows getOrCreateUnboxerIdCookie].

Lemma getOrCreate_reuses (w : World) (c : Cookie) :
  jar w !! "unboxerId" = Some c ->
  isValidUUID (value c) = true ->
  getOrCreateUnboxerIdCookie w = (Ret (value c), w).
Proof.
  intros Hc Hv. unfold getOrCreateUnboxerIdCookie. run.
  rewrite Hc, Hv. reflexivity.
Qed.

Lemma getOrCreate_replaces (w : World) :
  (forall c, jar w !! "unboxerId" = Some c -> isValidUUID (value c) = false) ->
  getOrCreateUnboxerIdCookie w = (Ret (value (fresh_cookie w)), after_fresh w).
Proof.
  intros Hc. unfold getOrCreateUnboxerIdCookie. run.
  destruct (jar w !! "unboxerId") as [c|] eqn:E.
  - rewrite (Hc c eq_refl). reflexivity.
  - reflexivity.
Qed.

(** Whatever the jar holds, the action answers an identifier, and touches
    nothing but the jar and the count of identifiers drawn. *)
Lemma getOrCreate_frame (w : World) :
  exists id w',
    getOrCreateUnboxerIdCookie w = (Ret id, w')
    /\ table w' = table w /\ serial w' = serial w
    /\ db_calls w' = db_calls w /\ console w' = console w
    /\ background w' = background w /\ rolls w' = rolls w.
Proof.
  destruct (jar w !! "unboxerId") as [c|] eqn:E;
    [destruct (isValidUUID (value c)) eqn:V|].
  - exists (value c), w. rewrite (getOrCreate_reuses w c E V). auto 10.
  - exists (value (fresh_cookie w)), (after_fresh w).
    rewrite getOrCreate_replaces; [auto 10|].
    intros c' Hc'. congruence.
  - exists (value (fresh_cookie w)), (after_fresh w).
    rewrite getOrCreate_replaces; [auto 10|].
    intros c' Hc'. congruence.
Qed.

(** C1. [getOrCreateUnboxerIdCookie]: without an [unboxerId] cookie, a
    fresh identifier of UUID format is stored in the cookie and returned;
    a cookie whose value passes the UUID pattern is returned as it is and
    the world (the jar with it) is left alone; any other value is
    overwritten by a fresh identifier, which is returned. *)
Theorem getOrCreateUnboxerIdCookie_cases (w : World) :
  (jar w !! "unboxerId" = None ->
     getOrCreateUnboxerIdCookie w = (Ret (value (fresh_cookie w)), after_fresh w))
  /\ (forall c, jar w !! "unboxerId" = Some c -> isValidUUID (value c) = true ->
        getOrCreateUnboxerIdCookie w = (Ret (value c), w))
  /\ (forall c, jar w !! "unboxerId" = Some c -> isValidUUID (value c) = false ->
        getOrCreateUnboxerIdCookie w = (Ret (value (fresh_cookie w)), after_fresh w))
  /\ isValidUUID (value (fresh_cookie w)) = true
  /\ jar (after_fresh w) !! "unboxerId" = Some (fresh_cookie w)
  /\ (forall name, name <> "unboxerId" ->
        jar (after_fresh w) !! name = jar w !! name).
Proof.
  repeat split.
  - intros Hn. apply getOrCreate_replaces. intros c Hc. congruence.
  - intros c Hc Hv. apply getOrCreate_reuses; assumption.
  - intros c Hc Hv. apply getOrCreate_replaces. intros c' Hc'. congruence.
  - apply randomUUID_valid.
  - unfold after_fresh. cbn. apply lookup_insert_eq.
  - intros name Hne. unfold after_fresh. cbn. apply lookup_insert_ne. congruence.
Qed.

(** *** Unboxing *)

Lemma lookup_case_none (caseId : string) :
  (forall c, c ∈ casesData -> case_id (caseInfo c) <> caseId) ->
  lookup_case caseId = None.
Proof.
  unfold lookup_case. induction casesData as [|x l IH]; intros H; [reflexivity|].
  cbn. destruct (String.eqb_spec (case_id (caseInfo x)) caseId) as [E|E].
  - exfalso. apply (H x); [left | exact E].
  - apply IH. intros c Hc. apply H. right. exact Hc.
Qed.

Lemma lookup_case_some (caseId : string) :
  (exists c, c ∈ casesData /\ case_id (caseInfo c) = caseId) ->
  exists c', lookup_case caseId = Some c'
             /\ c' ∈ casesData /\ case_id (caseInfo c') = caseId.
Proof.
  unfold lookup_case. induction casesData as [|x l IH]; intros (c & Hin & Hid).
  - inversion Hin.
  - cbn. destruct (String.eqb_spec (case_id (caseInfo x)) caseId) as [E|E].
    + exists x. split; [reflexivity|]. split; [left | exact E].
    + apply elem_of_cons in Hin as [->|Hin]; [contradiction|].
      destruct IH as (c' & Hf & Hin' & Hid'); [exists c; auto|].
      exists c'. split; [exact Hf|]. split; [right; exact Hin' | exact Hid'].
Qed.

(** C2. An id that no catalog entry carries: [unboxCase] answers [false],
    logs the miss, and neither sends a statement to the database nor
    hands a promise to [waitUntil]. *)
Theorem unboxCase_unknown_case (caseId : string) (w : World) :
  (forall c, c ∈ casesData -> case_id (caseInfo c) <> caseId) ->
  unboxCase caseId w =
    (Ret JsFalse,
     with_console
       (console w ++ ["unboxCase: Case id " +:+ caseId +:+ " not found"]) w)
  /\ no_database_write w (snd (unboxCase caseId w)).
Proof.
  intros H. apply lookup_case_none in H. unfold lookup_case in H.
  unfold unboxCase. rewrite H. run. split; [reflexivity|].
  repeat split.
Qed.

(** C3. A catalog case whose id starts with [crate-custom]: [unboxCase]
    leaves the table and its id sequence as they are, sends no statement
    and hands nothing to [waitUntil]; only the random tape moves. *)
Theorem unboxCase_custom_case (c : CaseDataType) (w : World) :
  c ∈ casesData ->
  startsWith (case_id (caseInfo c)) "crate-custom" = true ->
  no_database_write w (snd (unboxCase (case_id (caseInfo c)) w))
  /\ jar (snd (unboxCase (case_id (caseInfo c)) w)) = jar w
  /\ console (snd (unboxCase (case_id (caseInfo c)) w)) = console w.
Proof.
  intros Hin Hpre.
  destruct (lookup_case_some (case_id (caseInfo c))) as (c' & Hf & _ & Hid);
    [exists c; auto|].
  unfold lookup_case in Hf. unfold unboxCase. rewrite Hf. run.
  destruct (getItem c' (rolls w)) as [item pos]. cbn -[startsWith].
  rewrite Hid, Hpre. cbn. repeat split.
Qed.

(** A promise never rejects: resuming it answers a boolean. *)
Lemma resume_returns (p : Promise) (w : World) :
  exists b w', resume p w = (Ret b, w').
Proof.
  destruct p as [b|v]; run; [eauto|].
  destruct (db_throws (db_calls w)); eauto.
Qed.

Lemma resume_all_returns (ps : list Promise) (w : World) :
  exists bs w', resume_all ps w = (Ret bs, w').
Proof.
  revert w. induction ps as [|p ps IH]; intros w; cbn; [unfold ret; eauto|].
  unfold bind. destruct (resume_returns p w) as (b & w1 & ->).
  destruct (IH w1) as (bs & w2 & ->). unfold ret. eauto.
Qed.

Lemma served_value {A} (action : Action A) (w : World) (a : A) :
  fst (action w) = Ret a -> fst (served action w) = Ret a.
Proof.
  intros Ha. unfold served, bind, settle_background.
  destruct (action w) as [o w1]. cbn in Ha. subst o.
  destruct (resume_all_returns (background w1) (with_background [] w1))
    as (bs & w2 & ->).
  reflexivity.
Qed.

Lemma addItemToDB_begin_returns (cd : CaseDataType) (it : ItemType) (w : World) :
  exists p w', addItemToDB_begin cd it w = (Ret p, w').
Proof.
  unfold addItemToDB_begin. run.
  destruct (dataSchema _); cbn -[getOrCreateUnboxerIdCookie]; [|eauto].
  destruct (getOrCreate_frame w) as (id & w' & -> & _). eauto.
Qed.

(** C4. An id of the catalog: [unboxCase] answers the item that [getItem]
    draws for the entry found under that id, and it is still the answer
    once the runtime has settled the deferred write, whether the driver
    took the insert or rejected it ([db_throws] is arbitrary). *)
Theorem unboxCase_returns_drawn_item (caseId : string) (w : World) :
  (exists c, c ∈ casesData /\ case_id (caseInfo c) = caseId) ->
  exists c',
    lookup_case caseId = Some c'
    /\ c' ∈ casesData /\ case_id (caseInfo c') = caseId
    /\ fst (unboxCase caseId w) = Ret (Value (fst (getItem c' (rolls w))))
    /\ fst (served (unboxCase caseId) w)
       = Ret (Value (fst (getItem c' (rolls w)))).
Proof.
  intros H. destruct (lookup_case_some caseId H) as (c' & Hf & Hin & Hid).
  exists c'. split; [exact Hf|]. split; [exact Hin|]. split; [exact Hid|].
  assert (Hv : fst (unboxCase caseId w) = Ret (Value (fst (getItem c' (rolls w))))).
  { unfold lookup_case in Hf. unfold unboxCase. rewrite Hf.
    unfold bind, Math_random_getItem.
    destruct (getItem c' (rolls w)) as [item pos]. cbn -[startsWith addItemToDB_begin].
    destruct (negb _).
    - destruct (addItemToDB_begin_returns c' item (with_rolls pos w)) as (p & w' & ->).
      reflexivity.
    - reflexivity. }
  split; [exact Hv|]. apply served_value. exact Hv.
Qed.

(** *** Validation *)

Lemma untrusted_fails_schema (p : Payload) : untrusted p -> dataSchema p = false.
Proof.
  unfold untrusted, dataSchema, caseData_schema, itemData_schema, z_image.
  intros [H|H]; rewrite H; cbn.
  - reflexivity.
  - rewrite !andb_false_r. reflexivity.
Qed.

(** C5. A payload with a case image or an item image outside the two
    trusted prefixes: [addItemToDB] and [addItemsToDB] (for a batch that
    holds such a payload) fail the validation, answer [false] and write
    nothing; only the console changes. *)
Theorem untrusted_image_rejected :
  (forall (cd : CaseDataType) (it : ItemType) (w : World),
      untrusted {| caseData := caseInfo cd; itemData := it |} ->
      safeParse dataSchema {| caseData := caseInfo cd; itemData := it |} = false
      /\ addItemToDB cd it w =
           (Ret false,
            with_console (console w ++ ["addItemToDB: Error validating data:"]) w)
      /\ no_database_write w (snd (addItemToDB cd it w)))
  /\ (forall (data : list Payload) (p : Payload) (w : World),
        p ∈ data -> untrusted p ->
        safeParse (z_array dataSchema) data = false
        /\ addItemsToDB data w =
             (Ret false,
              with_console (console w ++ ["addItemsToDB: Error validating data:"]) w)
        /\ no_database_write w (snd (addItemsToDB data w))).
Proof.
  split.
  - intros cd it w H. apply untrusted_fails_schema in H.
    assert (E : addItemToDB cd it w =
           (Ret false,
            with_console (console w ++ ["addItemToDB: Error validating data:"]) w)).
    { run. rewrite H. reflexivity. }
    split; [exact H|]. split; [exact E|]. rewrite E. repeat split.
  - intros data p w Hin H. apply untrusted_fails_schema in H.
    assert (V : safeParse (z_array dataSchema) data = false).
    { unfold safeParse, z_array. apply not_true_is_false. intros Hall.
      rewrite forallb_forall in Hall. apply list_elem_of_In in Hin.
      rewrite (Hall p Hin) in H. discriminate. }
    assert (E : addItemsToDB data w =
             (Ret false,
              with_console (console w ++ ["addItemsToDB: Error validating data:"]) w)).
    { unfold addItemsToDB. rewrite V. reflexivity. }
    split; [exact V|]. split; [exact E|]. rewrite E. repeat split.
Qed.

(** *** Queries *)

#[local] Instance desc_id_total : Total desc_id.
Proof. intros a b. unfold desc_id. lia. Qed.

#[local] Instance desc_id_trans : Transitive desc_id.
Proof. intros a b c. unfold desc_id. lia. Qed.

Lemma select_rows_length (cond : option SQL) (n : nat) (t : list ItemTypeDB) :
  (length (select_rows cond n t) <= n)%nat.
Proof. unfold select_rows. rewrite length_take. lia. Qed.

Lemma select_rows_sorted (cond : option SQL) (n : nat) (t : list ItemTypeDB) :
  StronglySorted desc_id (select_rows cond n t).
Proof.
  unfold select_rows.
  set (sorted := merge_sort desc_id _).
  apply (StronglySorted_app_1_l desc_id _ (drop n sorted)).
  rewrite take_drop. apply StronglySorted_merge_sort; apply _.
Qed.

Lemma select_rows_elem (cond : option SQL) (n : nat) (t : list ItemTypeDB) r :
  r ∈ select_rows cond n t -> r ∈ t /\ where_ cond r = true.
Proof.
  unfold select_rows. intros Hr.
  apply elem_of_take in Hr as (i & Hi & _).
  apply list_elem_of_lookup_2 in Hi.
  rewrite merge_sort_Permutation in Hi.
  apply list_elem_of_filter in Hi as [Hc Hin].
  split; [exact Hin | apply Is_true_true_1; exact Hc].
Qed.

(** The limit cuts the oldest rows only: a row that passes the condition
    and is not returned is at most as recent as every returned row, and
    the limit is then reached. *)
Lemma select_rows_complete (cond : option SQL) (n : nat) (t : list ItemTypeDB) r :
  r ∈ t -> where_ cond r = true ->
  r ∈ select_rows cond n t
  \/ (length (select_rows cond n t) = n
      /\ forall r', r' ∈ select_rows cond n t -> row_id r <= row_id r').
Proof.
  unfold select_rows. intros Hin Hc.
  set (sorted := merge_sort desc_id _).
  assert (Hr : r ∈ sorted).
  { unfold sorted. rewrite merge_sort_Permutation.
    apply list_elem_of_filter. split; [rewrite Hc; exact I | exact Hin]. }
  assert (Hs : StronglySorted desc_id (take n sorted ++ drop n sorted)).
  { rewrite take_drop. apply StronglySorted_merge_sort; apply _. }
  rewrite <- (take_drop n sorted) in Hr.
  apply elem_of_app in Hr as [Hr|Hr]; [left; exact Hr|].
  right. split.
  - apply length_take_le.
    destruct (decide (n <= length sorted)%nat) as [Hle|Hgt]; [exact Hle|].
    rewrite drop_ge in Hr by lia. inversion Hr.
  - intros r' Hr'.
    exact (StronglySorted_app_1_elem_of desc_id _ _ r' r Hs Hr' Hr).
Qed.

Lemma is_covert_iff (r : ItemTypeDB) :
  is_covert r = true <-> rarity r = "Covert" \/ rarity r = "Extraordinary".
Proof.
  unfold is_covert. rewrite orb_true_iff, !String.eqb_eq. reflexivity.
Qed.

Lemma is_personal_iff (id : string) (r : ItemTypeDB) :
  is_personal id r = true <-> unboxerId r = id.
Proof. unfold is_personal. apply String.eqb_eq. Qed.

(** The condition the queries build is the conjunction of the filters
    that are switched on, for the identifier of the requester. *)
Lemma query_condition_run (onlyCoverts onlyPersonal : option bool) (w : World) :
  exists id cond w',
    requester w = Ret id
    /\ query_condition onlyCoverts onlyPersonal w = (Ret cond, w')
    /\ table w' = table w /\ serial w' = serial w /\ db_calls w' = db_calls w
    /\ (forall r, where_ cond r = satisfies_filters onlyCoverts onlyPersonal id r).
Proof.
  unfold requester, query_condition.
  destruct (getOrCreate_frame w) as (id & w1 & E & Ht & Hs & Hd & _).
  exists id. unfold bind. rewrite E. cbn [fst].
  unfold satisfies_filters, is_covert, is_personal.
  destruct (truthy onlyPersonal), (truthy onlyCoverts); unfold bind, ret.
  - rewrite E. eexists _, _. repeat split; try eassumption.
    intros r. cbn. rewrite orb_false_r. reflexivity.
  - rewrite E. eexists _, _. repeat split; try eassumption.
  - eexists _, _. repeat split.
    intros r. cbn. rewrite orb_false_r, andb_true_r. reflexivity.
  - eexists _, _. repeat split.
Qed.

(** C6. [getItemsFromDB], when the driver takes the query: at most 100
    rows of the table, by descending id; with [onlyCoverts] every row
    has rarity Covert or Extraordinary, with [onlyPersonal] every row has
    the identifier of the requester as [unboxerId], and with both flags
    both hold.  The rows are the most recent ones that pass the filters:
    one that is left out is no newer than any returned row, and 100 rows
    are returned then. *)
Theorem getItemsFromDB_rows (onlyCoverts onlyPersonal : option bool) (w : World) :
  db_throws (db_calls w) = false ->
  exists id rows,
    requester w = Ret id
    /\ fst (getItemsFromDB onlyCoverts onlyPersonal w) = Ret (Value rows)
    /\ (length rows <= 100)%nat
    /\ StronglySorted desc_id rows
    /\ (forall r, r ∈ rows -> r ∈ table w)
    /\ (onlyCoverts = Some true ->
        forall r, r ∈ rows -> rarity r = "Covert" \/ rarity r = "Extraordinary")
    /\ (onlyPersonal = Some true ->
        forall r, r ∈ rows -> unboxerId r = id)
    /\ (forall r, r ∈ table w ->
        satisfies_filters onlyCoverts onlyPersonal id r = true ->
        r ∈ rows
        \/ (length rows = 100%nat /\ forall r', r' ∈ rows -> row_id r <= row_id r')).
Proof.
  intros Hok.
  destruct (query_condition_run onlyCoverts onlyPersonal w)
    as (id & cond & w' & Hid & Hq & Ht & _ & Hd & Hc).
  exists id, (select_rows cond 100 (table w)).
  split; [exact Hid|]. split.
  { unfold getItemsFromDB, try_catch, bind, db_select, statement.
    rewrite Hq, Hd, Hok. cbn -[select_rows]. rewrite Ht. reflexivity. }
  split; [apply select_rows_length|].
  split; [apply select_rows_sorted|].
  split; [intros r Hr; apply (select_rows_elem _ _ _ _ Hr)|].
  split.
  - intros -> r Hr. apply select_rows_elem in Hr as [_ Hr].
    rewrite Hc in Hr. unfold satisfies_filters in Hr. cbn in Hr.
    apply andb_true_iff in Hr as [Hr _]. apply is_covert_iff. exact Hr.
  - split.
    + intros -> r Hr. apply select_rows_elem in Hr as [_ Hr].
      rewrite Hc in Hr. unfold satisfies_filters in Hr. cbn in Hr.
      apply andb_true_iff in Hr as [_ Hr]. apply is_personal_iff. exact Hr.
    + intros r Hin Hf. apply select_rows_complete; [exact Hin|].
      rewrite Hc. exact Hf.
Qed.

Lemma foldr_max_spec (x : Z) (l : list Z) :
  (foldr Z.max x l = x \/ foldr Z.max x l ∈ l)
  /\ x <= foldr Z.max x l
  /\ (forall y, y ∈ l -> y <= foldr Z.max x l).
Proof.
  induction l as [|y l (Hmem & Hx & Hall)]; cbn.
  - split; [left; reflexivity|]. split; [lia|]. intros y Hy. inversion Hy.
  - split; [|split].
    + destruct (Z.max_spec y (foldr Z.max x l)) as [[_ ->]|[_ ->]].
      * destruct Hmem as [->|Hmem]; [left; reflexivity | right; right; exact Hmem].
      * right. left.
    + lia.
    + intros z Hz. apply elem_of_cons in Hz as [->|Hz]; [lia|].
      specialize (Hall z Hz). lia.
Qed.

Lemma sql_max_spec (l : list Z) (m : Z) :
  sql_max l = Some m -> m ∈ l /\ (forall x, x ∈ l -> x <= m).
Proof.
  destruct l as [|x l]; cbn; [discriminate|]. intros [= <-].
  destruct (foldr_max_spec x l) as (Hmem & Hx & Hall). split.
  - destruct Hmem as [->|Hmem]; [left | right; exact Hmem].
  - intros y Hy. apply elem_of_cons in Hy as [->|Hy]; [exact Hx | exact (Hall y Hy)].
Qed.

Lemma filter_where (cond : option SQL) (f : ItemTypeDB -> bool) (t : list ItemTypeDB) :
  (forall r, where_ cond r = f r) ->
  filter (fun r => where_ cond r) t = filter (fun r => f r) t.
Proof. intros H. apply list_filter_iff. intros r. rewrite H. reflexivity. Qed.

Lemma filter_all (f : ItemTypeDB -> bool) (t : list ItemTypeDB) :
  (forall r, f r = true) -> filter (fun r => f r) t = t.
Proof.
  intros H. induction t as [|r t IH]; [reflexivity|].
  rewrite filter_cons_True; [f_equal; exact IH|]. rewrite H. exact I.
Qed.

(** How the totals query runs when the driver takes it. *)
Lemma getTotalItemsFromDB_run (onlyCoverts onlyPersonal : option bool) (w : World) :
  db_throws (db_calls w) = false ->
  exists id,
    requester w = Ret id
    /\ fst (getTotalItemsFromDB onlyCoverts onlyPersonal w)
       = Ret (Value
           (default 0
              (if truthy onlyCoverts || truthy onlyPersonal
               then Some (Z.of_nat (length
                      (filter (fun r => satisfies_filters onlyCoverts onlyPersonal id r)
                              (table w))))
               else sql_max (row_id <$> table w)))).
Proof.
  intros Hok.
  destruct (query_condition_run onlyCoverts onlyPersonal w)
    as (id & cond & w' & Hid & Hq & Ht & _ & Hd & Hc).
  exists id. split; [exact Hid|].
  unfold getTotalItemsFromDB, try_catch, bind, db_select_value, statement.
  rewrite Hq, Hd, Hok. cbn -[filter where_ select_value]. rewrite Ht.
  unfold select_value. rewrite (filter_where cond _ (table w) Hc).
  destruct (truthy onlyCoverts) eqn:Ec, (truthy onlyPersonal) eqn:Ep;
    cbn -[filter]; try reflexivity.
  rewrite filter_all; [reflexivity|].
  intros r. unfold satisfies_filters. rewrite Ec, Ep. reflexivity.
Qed.

(** C7. [getTotalItemsFromDB], when the driver takes the query: without
    a filter flag it answers the greatest id among the rows of the table
    (there is one as soon as the table is not empty); with [onlyCoverts]
    or [onlyPersonal] it answers the number of rows that pass the filters
    switched on. *)
Theorem getTotalItemsFromDB_total (onlyCoverts onlyPersonal : option bool) (w : World) :
  db_throws (db_calls w) = false ->
  exists id,
    requester w = Ret id
    /\ (truthy onlyCoverts = false -> truthy onlyPersonal = false ->
        table w <> [] ->
        exists r, r ∈ table w
          /\ (forall r', r' ∈ table w -> row_id r' <= row_id r)
          /\ fst (getTotalItemsFromDB onlyCoverts onlyPersonal w)
             = Ret (Value (row_id r)))
    /\ (truthy onlyCoverts = true \/ truthy onlyPersonal = true ->
        fst (getTotalItemsFromDB onlyCoverts onlyPersonal w)
        = Ret (Value (Z.of_nat (length
            (filter (fun r => satisfies_filters onlyCoverts onlyPersonal id r)
                    (table w)))))).
Proof.
  intros Hok.
  destruct (getTotalItemsFromDB_run onlyCoverts onlyPersonal w Hok) as (id & Hid & E).
  exists id. split; [exact Hid|]. split.
  - intros Ec Ep Hne. rewrite Ec, Ep in E. cbn [orb] in E.
    destruct (sql_max (row_id <$> table w)) as [m|] eqn:Em.
    + apply sql_max_spec in Em as [Hm Hall].
      apply list_elem_of_fmap in Hm as (r & -> & Hr).
      exists r. split; [exact Hr|]. split; [|exact E].
      intros r' Hr'. apply Hall. apply list_elem_of_fmap_2. exact Hr'.
    + destruct (table w); [contradiction | discriminate].
  - intros Hf. rewrite E.
    assert (truthy onlyCoverts || truthy onlyPersonal = true) as ->
      by (apply orb_true_iff; exact Hf).
    reflexivity.
Qed.

(** C10. [getTotalItemsFromDB], when the driver takes the query, always
    answers a number; the field of the one result row is null exactly
    for the maximum id over no row, and the answer is then 0. *)
Theorem getTotalItemsFromDB_null_is_zero
  (onlyCoverts onlyPersonal : option bool) (w : World) :
  db_throws (db_calls w) = false ->
  (exists n, fst (getTotalItemsFromDB onlyCoverts onlyPersonal w) = Ret (Value n))
  /\ (forall cond, select_value count cond (table w) <> [None])
  /\ (truthy onlyCoverts = false -> truthy onlyPersonal = false ->
      table w = [] ->
      select_value max_id None (table w) = [None]
      /\ fst (getTotalItemsFromDB onlyCoverts onlyPersonal w) = Ret (Value 0)).
Proof.
  intros Hok.
  destruct (getTotalItemsFromDB_run onlyCoverts onlyPersonal w Hok) as (id & _ & E).
  split; [eauto|]. split; [intros cond; discriminate|].
  intros Ec Ep Ht. rewrite E, Ec, Ep, Ht. split; reflexivity.
Qed.

(** *** Batch insert *)

Lemma number_rows_Forall2 {A} (f : A -> InsertValues) (R : A -> ItemTypeDB -> Prop) :
  (forall a i, R a (store i (f a))) ->
  forall (l : list A) (next : Z), Forall2 R l (number_rows next (f <$> l)).
Proof.
  intros HR l. induction l as [|a l IH]; intros next; cbn.
  - constructor.
  - constructor; [apply HR | apply IH].
Qed.

(** How [addItemsToDB] runs, once the identifier is resolved. *)
Lemma addItemsToDB_run (data : list Payload) (w : World) (id : string) (w1 : World) :
  getOrCreateUnboxerIdCookie w = (Ret id, w1) ->
  addItemsToDB data w =
    if negb (safeParse (z_array dataSchema) data)
    then (Ret false,
          with_console (console w ++ ["addItemsToDB: Error validating data:"]) w)
    else
      match data with
      | [] => (Ret false, with_console (console w1 ++ ["Error adding items:"]) w1)
      | _ :: _ =>
          let w2 := with_db_calls (S (db_calls w1)) w1 in
          if db_throws (db_calls w1)
          then (Ret false, with_console (console w2 ++ ["Error adding items:"]) w2)
          else (Ret true,
                with_rows
                  (table w2 ++ number_rows (serial w2) (batch_values id <$> data))
                  (serial w2 + Z.of_nat (length (batch_values id <$> data))) w2)
      end.
Proof.
  intros E. unfold addItemsToDB.
  destruct (negb _); [reflexivity|].
  unfold bind at 1. rewrite E.
  destruct data as [|p data]; [reflexivity|].
  unfold try_catch, bind, db_insert. rewrite fmap_cons.
  unfold statement. destruct (db_throws (db_calls w1)); reflexivity.
Qed.

(** C9. The rows of one [addItemsToDB] call are appended to the table;
    there are none unless the call succeeds, and then there is one per
    payload, each with the identifier of the requester (resolved once)
    as [unboxerId], and with the payload's phase when that is a string
    and null when it is undefined or null.  The call succeeds when the
    batch is not empty, passes the validation and the driver takes the
    insert. *)
Theorem addItemsToDB_rows (data : list Payload) (w : World) :
  exists id new,
    requester w = Ret id
    /\ table (snd (addItemsToDB data w)) = (table w ++ new)%list
    /\ (new = [] \/ Forall2 (inserted_for id) data new)
    /\ (data <> [] ->
        safeParse (z_array dataSchema) data = true ->
        db_throws (db_calls w) = false ->
        fst (addItemsToDB data w) = Ret true
        /\ Forall2 (inserted_for id) data new).
Proof.
  destruct (getOrCreate_frame w) as (id & w1 & E & Ht & Hs & Hd & _).
  exists id. unfold requester. rewrite E. cbn [fst].
  rewrite (addItemsToDB_run data w id w1 E).
  assert (HF : forall next,
             Forall2 (inserted_for id) data (number_rows next (batch_values id <$> data))).
  { apply number_rows_Forall2. intros a i. split; [reflexivity|].
    cbn. destruct (item_phase (itemData a)); reflexivity. }
  destruct (safeParse (z_array dataSchema) data) eqn:V; cbn [negb].
  - destruct data as [|p data].
    + exists []. cbn. rewrite app_nil_r, Ht. split; [reflexivity|].
      split; [reflexivity|]. split; [left; reflexivity|]. intros Hne. contradiction.
    + rewrite Hd. destruct (db_throws (db_calls w)) eqn:F.
      * exists []. cbn. rewrite app_nil_r, Ht. split; [reflexivity|].
        split; [reflexivity|]. split; [left; reflexivity|]. intros _ _ Hf. discriminate.
      * exists (number_rows (serial w1) (batch_values id <$> p :: data)).
        split; [reflexivity|]. cbn -[number_rows]. rewrite Ht.
        split; [reflexivity|]. split; [right; apply HF|].
        intros _ _ _. split; [reflexivity | apply HF].
  - exists []. cbn. rewrite app_nil_r. split; [reflexivity|].
    split; [reflexivity|]. split; [left; reflexivity|]. intros _ Hv. discriminate.
Qed.

(** *** Failures *)

Lemma unboxCase_returns (caseId : string) (w : World) :
  exists r w', unboxCase caseId w = (Ret r, w').
Proof.
  unfold unboxCase.
  destruct (find _ casesData) as [c|]; [|run; eauto].
  unfold bind, Math_random_getItem.
  destruct (getItem c (rolls w)) as [item pos].
  destruct (negb _).
  - destruct (addItemToDB_begin_returns c item (with_rolls pos w)) as (p & w' & ->).
    cbn. eauto.
  - cbn. eauto.
Qed.

Lemma addItemToDB_returns (cd : CaseDataType) (it : ItemType) (w : World) :
  exists b w', addItemToDB cd it w = (Ret b, w').
Proof.
  unfold addItemToDB, bind.
  destruct (addItemToDB_begin_returns cd it w) as (p & w1 & ->).
  apply resume_returns.
Qed.

Lemma resume_rejected (v : InsertValues) (w : World) :
  db_throws (db_calls w) = true -> fst (resume (Suspended v) w) = Ret false.
Proof. intros F. run. rewrite F. reflexivity. Qed.

Lemma addItemToDB_invalid (cd : CaseDataType) (it : ItemType) (w : World) :
  safeParse dataSchema {| caseData := caseInfo cd; itemData := it |} = false ->
  fst (addItemToDB cd it w) = Ret false.
Proof. unfold safeParse. intros V. run. rewrite V. reflexivity. Qed.

Lemma addItemToDB_rejected (cd : CaseDataType) (it : ItemType) (w : World) :
  db_throws (db_calls w) = true -> fst (addItemToDB cd it w) = Ret false.
Proof.
  intros F.
  destruct (safeParse dataSchema {| caseData := caseInfo cd; itemData := it |}) eqn:V;
    [|apply addItemToDB_invalid; exact V].
  unfold safeParse in V. unfold addItemToDB, addItemToDB_begin, safeParse.
  rewrite V. cbn [negb]. unfold bind.
  destruct (getOrCreate_frame w) as (id & w1 & -> & _ & _ & Hd & _).
  unfold ret. apply resume_rejected. rewrite Hd. exact F.
Qed.

Lemma addItemsToDB_answers (data : list Payload) (w : World) :
  (exists b, fst (addItemsToDB data w) = Ret b)
  /\ (safeParse (z_array dataSchema) data = false -> fst (addItemsToDB data w) = Ret false)
  /\ (data = [] -> fst (addItemsToDB data w) = Ret false)
  /\ (db_throws (db_calls w) = true -> fst (addItemsToDB data w) = Ret false).
Proof.
  destruct (getOrCreate_frame w) as (id & w1 & E & _ & _ & Hd & _).
  rewrite (addItemsToDB_run data w id w1 E), Hd.
  destruct (safeParse (z_array dataSchema) data) eqn:V; cbn [negb].
  - destruct data as [|p data].
    + split; [eauto|]. repeat split; discriminate.
    + destruct (db_throws (db_calls w)); cbn.
      * split; [eauto|]. repeat split; discriminate.
      * split; [eauto|]. repeat split; discriminate.
  - cbn. split; [eauto|]. repeat split.
Qed.

Lemma getItemsFromDB_answers (onlyCoverts onlyPersonal : option bool) (w : World) :
  (exists r, fst (getItemsFromDB onlyCoverts onlyPersonal w) = Ret r)
  /\ (db_throws (db_calls w) = true ->
      fst (getItemsFromDB onlyCoverts onlyPersonal w) = Ret JsFalse).
Proof.
  destruct (query_condition_run onlyCoverts onlyPersonal w)
    as (id & cond & w' & _ & Hq & _ & _ & Hd & _).
  unfold getItemsFromDB, try_catch, bind, db_select, statement.
  rewrite Hq, Hd. destruct (db_throws (db_calls w)); cbn -[select_rows].
  - split; [eauto | reflexivity].
  - split; [eauto | discriminate].
Qed.

Lemma getTotalItemsFromDB_answers (onlyCoverts onlyPersonal : option bool) (w : World) :
  (exists r, fst (getTotalItemsFromDB onlyCoverts onlyPersonal w) = Ret r)
  /\ (db_throws (db_calls w) = true ->
      fst (getTotalItemsFromDB onlyCoverts onlyPersonal w) = Ret JsFalse).
Proof.
  destruct (db_throws (db_calls w)) eqn:F.
  - destruct (query_condition_run onlyCoverts onlyPersonal w)
      as (id & cond & w' & _ & Hq & _ & _ & Hd & _).
    unfold getTotalItemsFromDB, try_catch, bind, db_select_value, statement.
    rewrite Hq, Hd, F. cbn. split; [eauto | reflexivity].
  - destruct (getTotalItemsFromDB_run onlyCoverts onlyPersonal w F) as (id & _ & E).
    split; [eauto | discriminate].
Qed.

Lemma returned_Ret {A} (o : Outcome A) : (exists a, o = Ret a) -> returned o.
Proof. intros [a ->]. exact I. Qed.

(** C8. No exported action throws, whatever its input, the world and the
    failures of the driver: [unboxCase] (also once its deferred write is
    settled), [addItemToDB], [addItemsToDB], [getItemsFromDB] and
    [getTotalItemsFromDB] all return.  A payload that fails the
    validation makes the insert actions answer [false]; a statement the
    driver rejects makes the action that sent it answer [false], and the
    deferred write of [unboxCase] resolve to [false]. *)
Theorem failures_become_false
  (caseId : string) (cd : CaseDataType) (it : ItemType) (data : list Payload)
  (onlyCoverts onlyPersonal : option bool) (w : World) :
  (returned (fst (unboxCase caseId w))
   /\ returned (fst (served (unboxCase caseId) w))
   /\ returned (fst (addItemToDB cd it w))
   /\ returned (fst (addItemsToDB data w))
   /\ returned (fst (getItemsFromDB onlyCoverts onlyPersonal w))
   /\ returned (fst (getTotalItemsFromDB onlyCoverts onlyPersonal w)))
  /\ (safeParse dataSchema {| caseData := caseInfo cd; itemData := it |} = false ->
      fst (addItemToDB cd it w) = Ret false)
  /\ (safeParse (z_array dataSchema) data = false ->
      fst (addItemsToDB data w) = Ret false)
  /\ (db_throws (db_calls w) = true ->
      fst (addItemToDB cd it w) = Ret false
      /\ fst (addItemsToDB data w) = Ret false
      /\ fst (getItemsFromDB onlyCoverts onlyPersonal w) = Ret JsFalse
      /\ fst (getTotalItemsFromDB onlyCoverts onlyPersonal w) = Ret JsFalse
      /\ (forall values, fst (resume (Suspended values) w) = Ret false)).
Proof.
  destruct (unboxCase_returns caseId w) as (r & w1 & Hu).
  assert (Hr : fst (unboxCase caseId w) = Ret r) by (rewrite Hu; reflexivity).
  destruct (addItemToDB_returns cd it w) as (b & w2 & Ha).
  destruct (addItemsToDB_answers data w) as ((b' & Hb) & Hinv & _ & Hrej).
  destruct (getItemsFromDB_answers onlyCoverts onlyPersonal w) as (Hg & Hgrej).
  destruct (getTotalItemsFromDB_answers onlyCoverts onlyPersonal w) as (Ht & Htrej).
  split; [|split; [|split]].
  - split; [apply returned_Ret; eauto|].
    split; [apply returned_Ret; exists r; apply served_value; exact Hr|].
    split; [apply returned_Ret; exists b; rewrite Ha; reflexivity|].
    split; [apply returned_Ret; eauto|].
    split; apply returned_Ret; assumption.
  - apply addItemToDB_invalid.
  - exact Hinv.
  - intros F. split; [apply addItemToDB_rejected; exact F|].
    split; [apply Hrej; exact F|]. split; [apply Hgrej; exact F|].
    split; [apply Htrej; exact F|]. intros v. apply resume_rejected. exact F.
Qed.

(* ===================================================================== *)
(** ** Further properties *)

(** *** The UUID pattern *)

Lemma repeat_match_inv (i : bool) (a : Regex.Atom) (n : nat) (s rest : list ascii) :
  Regex.repeat_match i a n s = Some rest ->
  exists pre, s = (pre ++ rest)%list /\ length pre = n
              /\ Forall (fun c => Regex.atom_matches i a c = true) pre.
Proof.
  revert s. induction n as [|n IH]; intros s; cbn.
  - intros [= ->]. exists []. repeat split. constructor.
  - destruct s as [|c s]; [discriminate|].
    destruct (Regex.atom_matches i a c) eqn:E; [|discriminate].
    intros H. destruct (IH s H) as (pre & -> & Hl & Hf).
    exists (c :: pre). split; [reflexivity|]. split; [cbn; lia|].
    constructor; assumption.
Qed.

Lemma repeat_match_app (i : bool) (a : Regex.Atom) (n : nat) (pre rest : list ascii) :
  length pre = n ->
  Forall (fun c => Regex.atom_matches i a c = true) pre ->
  Regex.repeat_match i a n (pre ++ rest) = Some rest.
Proof.
  intros <- Hf. induction Hf as [|c pre Hc Hf IH]; cbn; [reflexivity|].
  rewrite Hc. exact IH.
Qed.

Lemma match_atoms_cons (i : bool) (a : Regex.Atom) (n : nat)
  (p : list (Regex.Atom * nat)) (s : list ascii) :
  Regex.match_atoms i ((a, n) :: p) s
  = match Regex.repeat_match i a n s with
    | Some rest => Regex.match_atoms i p rest
    | None => false
    end.
Proof. reflexivity. Qed.

Lemma repeat_match_one (i : bool) (a : Regex.Atom) (c : ascii) (s : list ascii) :
  Regex.repeat_match i a 1 (c :: s)
  = if Regex.atom_matches i a c then Some s else None.
Proof. reflexivity. Qed.

Lemma hex_class_chars (c : ascii) :
  Regex.atom_matches true (Regex.OneOf hex_class) c = is_hex_char c.
Proof. destruct c as [[] [] [] [] [] [] [] []]; reflexivity. Qed.

Lemma version_class_chars (c : ascii) :
  Regex.atom_matches true (Regex.OneOf version_class) c = is_version_char c.
Proof. destruct c as [[] [] [] [] [] [] [] []]; reflexivity. Qed.

Lemma variant_class_chars (c : ascii) :
  Regex.atom_matches true (Regex.OneOf variant_class) c = is_variant_char c.
Proof. destruct c as [[] [] [] [] [] [] [] []]; reflexivity. Qed.

Lemma dash_only (c : ascii) :
  Regex.atom_matches true (Regex.Lit "-") c = true -> c = "-"%char.
Proof.
  destruct c as [[] [] [] [] [] [] [] []]; vm_compute; intros H;
    first [reflexivity | discriminate H].
Qed.

Lemma Forall_hex (l : list ascii) :
  Forall (fun c => Regex.atom_matches true (Regex.OneOf hex_class) c = true) l
  <-> Forall (fun c => is_hex_char c = true) l.
Proof. apply Forall_iff. intros c. rewrite hex_class_chars. reflexivity. Qed.

Lemma length_one {A} (l : list A) : length l = 1%nat -> exists x, l = [x].
Proof. destruct l as [|x [|y l]]; try discriminate. eauto. Qed.

Ltac peel E pre Hl Hf :=
  match goal with
  | H : match Regex.repeat_match ?i ?a ?n ?s with _ => _ end = true |- _ =>
      destruct (Regex.repeat_match i a n s) as [?rest|] eqn:E; [|discriminate H];
      apply repeat_match_inv in E as (pre & -> & Hl & Hf)
  end.

Lemma isValidUUID_shaped (s : string) : isValidUUID s = true -> uuid_shaped s.
Proof.
  unfold isValidUUID, Regex.test, uuid_regex. cbn [Regex.atoms Regex.ignoreCase].
  unfold uuid_shaped. remember (list_ascii_of_string s) as l eqn:El.
  intros H. cbn [Regex.match_atoms] in H.
  peel E1 g1 L1 F1. peel E2 d1 L2 F2. peel E3 g2 L3 F3. peel E4 d2 L4 F4.
  peel E5 v L5 F5. peel E6 g3 L6 F6. peel E7 d3 L7 F7.
  peel E8 r L8 F8. peel E9 g4 L9 F9. peel E10 d4 L10 F10. peel E11 g5 L11 F11.
  destruct rest as [|? ?]; [|discriminate H].
  destruct (length_one _ L2) as (x1 & ->). destruct (length_one _ L4) as (x2 & ->).
  destruct (length_one _ L7) as (x3 & ->). destruct (length_one _ L10) as (x4 & ->).
  destruct (length_one _ L5) as (cv & ->). destruct (length_one _ L8) as (cr & ->).
  rewrite Forall_singleton in F2, F4, F7, F10, F5, F8.
  apply dash_only in F2, F4, F7, F10. subst x1 x2 x3 x4.
  rewrite version_class_chars in F5. rewrite variant_class_chars in F8.
  apply Forall_hex in F1, F3, F6, F9, F11.
  exists g1, g2, cv, g3, cr, g4, g5.
  split; [cbn [app]; rewrite app_nil_r; reflexivity|].
  split; [auto|]. split; [|auto].
  repeat (apply Forall_app; split); assumption.
Qed.

Lemma uuid_shaped_isValidUUID (s : string) : uuid_shaped s -> isValidUUID s = true.
Proof.
  intros (g1 & g2 & v & g3 & r & g4 & g5 & E & (L1 & L2 & L3 & L4 & L5) & F & Hv & Hr).
  unfold isValidUUID, Regex.test, uuid_regex. cbn [Regex.atoms Regex.ignoreCase].
  rewrite E. clear E.
  repeat (apply Forall_app in F as [? F]).
  rewrite <- (app_nil_r g5).
  repeat (rewrite match_atoms_cons;
          first [ rewrite repeat_match_app
                    by first [assumption | apply Forall_hex; assumption]
                | rewrite <- ?app_comm_cons; rewrite repeat_match_one;
                  first [ rewrite dash_matches
                        | rewrite version_class_chars, Hv
                        | rewrite variant_class_chars, Hr ] ]).
  reflexivity.
Qed.

Lemma length_list_ascii (s : string) :
  length (list_ascii_of_string s) = String.length s.
Proof. induction s as [|c s IH]; cbn; [reflexivity | rewrite IH; reflexivity]. Qed.

(** X1. The values [isValidUUID] accepts are exactly the strings of five
    groups of 8, 4, 4, 4 and 12 hexadecimal characters (either case)
    joined by dashes, with 0-5 at the head of the third group and one of
    0, 8, 9, a, b (either case) at the head of the fourth; they have 36
    characters. *)
Theorem isValidUUID_shape (s : string) :
  (isValidUUID s = true <-> uuid_shaped s)
  /\ (isValidUUID s = true -> String.length s = 36%nat).
Proof.
  split; [split; [apply isValidUUID_shaped | apply uuid_shaped_isValidUUID]|].
  intros H. apply isValidUUID_shaped in H
    as (g1 & g2 & v & g3 & r & g4 & g5 & E & (L1 & L2 & L3 & L4 & L5) & _).
  rewrite <- length_list_ascii, E.
  repeat (rewrite ?length_app; cbn [length]). lia.
Qed.







(** *** The visitor cookie, again *)

(** X3. After [getOrCreateUnboxerIdCookie] the jar holds an [unboxerId]
    cookie whose value is the identifier returned and passes
    [isValidUUID]; calling the action again in the world it left returns
    the same identifier and changes nothing. *)
Theorem getOrCreate_settles (w : World) :
  exists id w',
    getOrCreateUnboxerIdCookie w = (Ret id, w')
    /\ isValidUUID id = true
    /\ (exists c, jar w' !! "unboxerId" = Some c /\ value c = id)
    /\ getOrCreateUnboxerIdCookie w' = (Ret id, w').
Proof.
  assert (Hfresh :
    (forall c, jar w !! "unboxerId" = Some c -> isValidUUID (value c) = false) ->
    exists id w',
      getOrCreateUnboxerIdCookie w = (Ret id, w')
      /\ isValidUUID id = true
      /\ (exists c, jar w' !! "unboxerId" = Some c /\ value c = id)
      /\ getOrCreateUnboxerIdCookie w' = (Ret id, w')).
  { intros H. exists (value (fresh_cookie w)), (after_fresh w).
    assert (Hj : jar (after_fresh w) !! "unboxerId" = Some (fresh_cookie w))
      by (unfold after_fresh; cbn; apply lookup_insert_eq).
    split; [apply getOrCreate_replaces; exact H|].
    split; [apply randomUUID_valid|].
    split; [exists (fresh_cookie w); split; [exact Hj | reflexivity]|].
    apply (getOrCreate_reuses (after_fresh w) (fresh_cookie w) Hj).
    apply randomUUID_valid. }
  destruct (jar w !! "unboxerId") as [c|] eqn:E;
    [destruct (isValidUUID (value c)) eqn:V|].
  - exists (value c), w. rewrite (getOrCreate_reuses w c E V). eauto 10.
  - apply Hfresh. intros c' [= <-]. exact V.
  - apply Hfresh. intros c' Hc'. discriminate.
Qed.

(** *** How the writers run *)

Lemma getOrCreate_with_rolls (n : nat) (w : World) :
  getOrCreateUnboxerIdCookie (with_rolls n w)
  = (fst (getOrCreateUnboxerIdCookie w),
     with_rolls n (snd (getOrCreateUnboxerIdCookie w))).
Proof.
  unfold getOrCreateUnboxerIdCookie. run.
  destruct (jar w !! "unboxerId") as [c|]; [destruct (isValidUUID (value c))|];
    reflexivity.
Qed.

Lemma valid_payload (c : CaseInfo) (it : ItemType) :
  dataSchema {| caseData := c; itemData := it |}
  = trusted_image (case_image c) && trusted_image (item_image it).
Proof.
  unfold dataSchema, caseData_schema, itemData_schema, z_image. cbn.
  destruct (item_phase it); cbn; reflexivity.
Qed.

Lemma store_row_of (i : Z) (c : CaseInfo) (it : ItemType) (id : string)
  (p : Nullish string) :
  stored_phase p = stored_phase (item_phase it) ->
  store i {| v_caseId := case_id c; v_caseName := case_name c;
             v_caseImage := case_image c; v_itemId := item_id it;
             v_itemName := item_name it;
             v_rarity := rarity_name (item_rarity it); v_phase := p;
             v_itemImage := item_image it; v_unboxerId := id |}
  = row_of i c it id.
Proof.
  intros Hp. unfold store, row_of. cbn. rewrite Hp.
  destruct (item_phase it); reflexivity.
Qed.

(** How [addItemToDB] runs, once the identifier is resolved. *)
Lemma addItemToDB_run (cd : CaseDataType) (it : ItemType) (w : World)
  (id : string) (w1 : World) :
  getOrCreateUnboxerIdCookie w = (Ret id, w1) ->
  addItemToDB cd it w =
    if negb (dataSchema {| caseData := caseInfo cd; itemData := it |})
    then (Ret false,
          with_console (console w ++ ["addItemToDB: Error validating data:"]) w)
    else
      let w2 := with_db_calls (S (db_calls w1)) w1 in
      if db_throws (db_calls w1)
      then (Ret false, with_console (console w2 ++ ["Error adding item:"]) w2)
      else (Ret true,
            with_rows (table w2 ++ [row_of (serial w2) (caseInfo cd) it id])
                      (serial w2 + 1) w2).
Proof.
  intros E. unfold addItemToDB, addItemToDB_begin, safeParse.
  destruct (negb _); [reflexivity|].
  unfold bind at 1. unfold bind at 1. rewrite E. unfold ret at 1.
  unfold resume, try_catch, bind, db_insert, statement.
  destruct (db_throws (db_calls w1)); [reflexivity|].
  cbn -[store]. rewrite store_row_of by reflexivity. reflexivity.
Qed.

Lemma resume_run (v : InsertValues) (w : World) :
  resume (Suspended v) w =
    let w2 := with_db_calls (S (db_calls w)) w in
    if db_throws (db_calls w)
    then (Ret false, with_console (console w2 ++ ["Error adding item:"]) w2)
    else (Ret true,
          with_rows (table w2 ++ [store (serial w2) v]) (serial w2 + 1) w2).
Proof.
  unfold resume, try_catch, bind, db_insert, statement.
  destruct (db_throws (db_calls w)); reflexivity.
Qed.

(** How [unboxCase] runs on an id of the catalog. *)
Lemma unboxCase_run (caseId : string) (c : CaseDataType) (w : World)
  (item : ItemType) (pos : nat) (id : string) (w1 : World) :
  lookup_case caseId = Some c ->
  getItem c (rolls w) = (item, pos) ->
  getOrCreateUnboxerIdCookie w = (Ret id, w1) ->
  unboxCase caseId w =
    (Ret (Value item),
     if startsWith (case_id (caseInfo c)) "crate-custom"
     then with_rolls pos w
     else if negb (dataSchema {| caseData := caseInfo c; itemData := item |})
          then with_background (background w ++ [Resolved false])
                 (with_console
                    (console w ++ ["addItemToDB: Error validating data:"])
                    (with_rolls pos w))
          else with_background
                 (background w1 ++ [Suspended (single_values (caseInfo c) item id)])
                 (with_rolls pos w1)).
Proof.
  intros Hf Hg E. unfold lookup_case in Hf. unfold unboxCase. rewrite Hf.
  unfold bind at 1. unfold Math_random_getItem. rewrite Hg.
  destruct (startsWith (case_id (caseInfo c)) "crate-custom"); cbn [negb];
    [reflexivity|].
  unfold addItemToDB_begin, safeParse.
  destruct (negb (dataSchema _)); [reflexivity|].
  unfold bind. rewrite getOrCreate_with_rolls, E. reflexivity.
Qed.

Lemma getOrCreate_cookie (w : World) (id : string) (w' : World) :
  getOrCreateUnboxerIdCookie w = (Ret id, w') ->
  isValidUUID id = true
  /\ exists c, jar w' !! "unboxerId" = Some c /\ value c = id.
Proof.
  destruct (jar w !! "unboxerId") as [c|] eqn:E;
    [destruct (isValidUUID (value c)) eqn:V|].
  - rewrite (getOrCreate_reuses w c E V). intros [= <- <-]. eauto.
  - rewrite getOrCreate_replaces
      by (intros c' Hc'; rewrite E in Hc'; injection Hc' as <-; exact V).
    intros [= <- <-]. split; [apply randomUUID_valid|].
    exists (fresh_cookie w). split; [|reflexivity].
    unfold after_fresh. cbn. apply lookup_insert_eq.
  - rewrite getOrCreate_replaces
      by (intros c' Hc'; rewrite E in Hc'; discriminate Hc').
    intros [= <- <-]. split; [apply randomUUID_valid|].
    exists (fresh_cookie w). split; [|reflexivity].
    unfold after_fresh. cbn. apply lookup_insert_eq.
Qed.

(** *** Unboxing, to the end of the request *)

(** X4. A catalog case that is not custom, whose images are trusted,
    opened with nothing else pending: the response carries the drawn
    item and is sent with the table as it was and with the visitor's
    cookie in place; once the runtime settles the deferred write, the
    table has exactly one more row, for that case, that item and that
    visitor, under the next id, if the driver takes the insert, and is
    unchanged, with the error on the console, if the driver rejects it. *)
Theorem unboxCase_persists (caseId : string) (c : CaseDataType) (w : World) :
  lookup_case caseId = Some c ->
  startsWith (case_id (caseInfo c)) "crate-custom" = false ->
  trusted_image (case_image (caseInfo c)) = true ->
  trusted_image (item_image (fst (getItem c (rolls w)))) = true ->
  background w = [] ->
  exists id,
    requester w = Ret id
    /\ fst (unboxCase caseId w) = Ret (Value (fst (getItem c (rolls w))))
    /\ table (snd (unboxCase caseId w)) = table w
    /\ (exists cookie,
           jar (snd (unboxCase caseId w)) !! "unboxerId" = Some cookie
           /\ value cookie = id)
    /\ background (snd (served (unboxCase caseId) w)) = []
    /\ (db_throws (db_calls w) = false ->
        table (snd (served (unboxCase caseId) w))
        = (table w ++ [row_of (serial w) (caseInfo c)
                         (fst (getItem c (rolls w))) id])%list
        /\ serial (snd (served (unboxCase caseId) w)) = serial w + 1)
    /\ (db_throws (db_calls w) = true ->
        table (snd (served (unboxCase caseId) w)) = table w
        /\ serial (snd (served (unboxCase caseId) w)) = serial w
        /\ console (snd (served (unboxCase caseId) w))
           = (console w ++ ["Error adding item:"])%list).
Proof.
  intros Hf Hc Hti Htj Hb.
  destruct (getItem c (rolls w)) as [item pos] eqn:Hg. cbn [fst] in *.
  destruct (getOrCreate_frame w) as (id & w1 & E & Ht & Hs & Hd & Hco & Hbg & _).
  destruct (getOrCreate_cookie w id w1 E) as (_ & cookie & Hj & Hv).
  exists id. unfold requester. rewrite E. split; [reflexivity|].
  pose proof (unboxCase_run caseId c w item pos id w1 Hf Hg E) as Hu.
  rewrite Hc, valid_payload, Hti, Htj in Hu. cbn [negb andb] in Hu.
  unfold served, bind, settle_background. rewrite Hu. cbn [fst snd].
  split; [reflexivity|]. split; [exact Ht|].
  split; [exists cookie; split; [exact Hj | exact Hv]|].
  cbn -[resume]. rewrite Hbg, Hb. cbn -[resume].
  unfold bind. rewrite resume_run. cbn -[store]. rewrite Hd.
  destruct (db_throws (db_calls w)); cbn -[store].
  - split; [reflexivity|]. split; [discriminate|]. intros _.
    rewrite Ht, Hs, Hco. auto.
  - split; [reflexivity|]. split; [|discriminate]. intros _.
    rewrite Ht, Hs. unfold single_values.
    rewrite store_row_of by reflexivity. auto.
Qed.

(** X5. A catalog case that is not custom but whose case image or drawn
    item image is not trusted: the item is still returned, only the
    validation error is logged, no identifier is resolved, and the
    promise handed to [waitUntil] is already resolved to [false], so that
    no statement is ever sent for it. *)
Theorem unboxCase_invalid_payload (caseId : string) (c : CaseDataType) (w : World) :
  lookup_case caseId = Some c ->
  startsWith (case_id (caseInfo c)) "crate-custom" = false ->
  untrusted {| caseData := caseInfo c; itemData := fst (getItem c (rolls w)) |} ->
  unboxCase caseId w
  = (Ret (Value (fst (getItem c (rolls w)))),
     with_background (background w ++ [Resolved false])
       (with_console (console w ++ ["addItemToDB: Error validating data:"])
          (with_rolls (snd (getItem c (rolls w))) w)))
  /\ forall w0, resume (Resolved false) w0 = (Ret false, w0).
Proof.
  intros Hf Hc Hu. split; [|reflexivity].
  destruct (getItem c (rolls w)) as [item pos] eqn:Hg. cbn [fst snd] in *.
  destruct (getOrCreate_frame w) as (id & w1 & E & _).
  rewrite (unboxCase_run caseId c w item pos id w1 Hf Hg E), Hc.
  rewrite (untrusted_fails_schema _ Hu). reflexivity.
Qed.

(** *** The table only grows *)

Lemma grows_same (w w' : World) :
  table w' = table w -> serial w' = serial w -> grows w w'.
Proof.
  intros Ht Hs. exists []. rewrite app_nil_r. cbn. split; [exact Ht|].
  split; [lia | reflexivity].
Qed.

Lemma grows_trans (w1 w2 w3 : World) : grows w1 w2 -> grows w2 w3 -> grows w1 w3.
Proof.
  intros (n1 & Ht1 & Hs1 & Hi1) (n2 & Ht2 & Hs2 & Hi2).
  exists (n1 ++ n2)%list. rewrite Ht2, Ht1, Hs2, Hs1, <- app_assoc.
  split; [reflexivity|]. rewrite length_app. split; [lia|].
  rewrite fmap_app, Hi1, Hi2, Hs1.
  rewrite Nat2Z.inj_add. symmetry. apply seqZ_app; lia.
Qed.

Lemma number_rows_ids (next : Z) (vs : list InsertValues) :
  length (number_rows next vs) = length vs
  /\ row_id <$> number_rows next vs = seqZ next (Z.of_nat (length vs)).
Proof.
  revert next. induction vs as [|v vs IH]; intros next; [split; reflexivity|].
  destruct (IH (next + 1)) as [Hl Hi]. cbn [number_rows length fmap list_fmap].
  split; [rewrite Hl; reflexivity|].
  rewrite (seqZ_cons next) by lia. cbn [row_id store]. f_equal.
  fold (fmap (M := list) row_id (number_rows (next + 1) vs)). rewrite Hi.
  f_equal; lia.
Qed.

Lemma grows_insert (w : World) (vs : list InsertValues) (w' : World) :
  table w' = (table w ++ number_rows (serial w) vs)%list ->
  serial w' = serial w + Z.of_nat (length vs) ->
  grows w w'.
Proof.
  intros Ht Hs. destruct (number_rows_ids (serial w) vs) as [Hl Hi].
  exists (number_rows (serial w) vs). rewrite Hl. auto.
Qed.

Lemma resume_grows (p : Promise) (w : World) : grows w (snd (resume p w)).
Proof.
  destruct p as [b|v]; [apply grows_same; reflexivity|].
  rewrite resume_run. cbn zeta. destruct (db_throws (db_calls w)).
  - apply grows_same; reflexivity.
  - apply (grows_insert w [v]); reflexivity.
Qed.

Lemma resume_all_grows (ps : list Promise) (w : World) :
  grows w (snd (resume_all ps w)).
Proof.
  revert w. induction ps as [|p ps IH]; intros w; cbn [resume_all].
  - apply grows_same; reflexivity.
  - unfold bind. pose proof (resume_grows p w) as H1.
    destruct (resume_returns p w) as (b & w1 & E). rewrite E in *. cbn [snd] in H1.
    pose proof (IH w1) as H2.
    destruct (resume_all_returns ps w1) as (bs & w2 & E2). rewrite E2 in *.
    cbn [snd] in *. exact (grows_trans _ _ _ H1 H2).
Qed.

Lemma served_grows {A} (action : Action A) (w : World) :
  grows w (snd (action w)) -> grows w (snd (served action w)).
Proof.
  intros H. unfold served, bind, settle_background.
  destruct (action w) as [[a|e] w1]; cbn [snd] in *; [|exact H].
  pose proof (resume_all_grows (background w1) (with_background [] w1)) as H2.
  destruct (resume_all _ _) as [[bs|e] w2]; cbn [snd] in *;
    apply (grows_trans _ _ _ H); destruct H2 as (new & ? & ? & ?);
    exists new; auto.
Qed.

Lemma unboxCase_frame (caseId : string) (w : World) :
  table (snd (unboxCase caseId w)) = table w
  /\ serial (snd (unboxCase caseId w)) = serial w
  /\ db_calls (snd (unboxCase caseId w)) = db_calls w.
Proof.
  destruct (lookup_case caseId) as [c|] eqn:Hf.
  - destruct (getItem c (rolls w)) as [item pos] eqn:Hg.
    destruct (getOrCreate_frame w) as (id & w1 & E & Ht & Hs & Hd & _).
    rewrite (unboxCase_run caseId c w item pos id w1 Hf Hg E).
    destruct (startsWith _ _); [auto|]. destruct (negb _); cbn; auto.
  - unfold lookup_case in Hf. unfold unboxCase. rewrite Hf. cbn. auto.
Qed.

Lemma addItemToDB_grows (cd : CaseDataType) (it : ItemType) (w : World) :
  grows w (snd (addItemToDB cd it w)).
Proof.
  destruct (getOrCreate_frame w) as (id & w1 & E & Ht & Hs & _).
  rewrite (addItemToDB_run cd it w id w1 E).
  destruct (negb _); [apply grows_same; reflexivity|]. cbn zeta.
  destruct (db_throws _); [apply grows_same; [exact Ht | exact Hs]|].
  apply (grows_insert w [single_values (caseInfo cd) it id]).
  - cbn. rewrite Ht, Hs. unfold single_values.
    rewrite store_row_of by reflexivity. reflexivity.
  - cbn. rewrite Hs. reflexivity.
Qed.

Lemma addItemsToDB_grows (data : list Payload) (w : World) :
  grows w (snd (addItemsToDB data w)).
Proof.
  destruct (getOrCreate_frame w) as (id & w1 & E & Ht & Hs & _).
  rewrite (addItemsToDB_run data w id w1 E).
  destruct (negb _); [apply grows_same; reflexivity|].
  destruct data as [|p data]; [apply grows_same; [exact Ht | exact Hs]|].
  cbn zeta. destruct (db_throws _); [apply grows_same; [exact Ht | exact Hs]|].
  apply (grows_insert w (batch_values id <$> p :: data)).
  - cbn -[number_rows]. rewrite Ht, Hs. reflexivity.
  - cbn -[Z.of_nat fmap]. rewrite Hs. reflexivity.
Qed.

(** What a query leaves behind: one more statement sent, and the world
    that resolving the identifier left when [onlyPersonal] asked for it. *)
Lemma getItemsFromDB_frame (onlyCoverts onlyPersonal : option bool) (w : World) :
  let w0 := if truthy onlyPersonal then snd (getOrCreateUnboxerIdCookie w) else w in
  let w' := snd (getItemsFromDB onlyCoverts onlyPersonal w) in
  table w' = table w /\ serial w' = serial w /\ background w' = background w
  /\ rolls w' = rolls w /\ db_calls w' = S (db_calls w)
  /\ jar w' = jar w0 /\ uuid_draws w' = uuid_draws w0.
Proof.
  destruct (getOrCreate_frame w) as (id & w1 & E & Ht & Hs & Hd & Hc & Hb & Hr).
  unfold getItemsFromDB, query_condition, try_catch, bind, db_select, statement.
  destruct (truthy onlyPersonal); rewrite ?E; unfold ret; cbn [fst snd].
  - rewrite Hd. destruct (db_throws _); cbn -[select_rows]; auto 10.
  - destruct (db_throws _); cbn -[select_rows]; auto 10.
Qed.

Lemma getTotalItemsFromDB_frame (onlyCoverts onlyPersonal : option bool) (w : World) :
  let w0 := if truthy onlyPersonal then snd (getOrCreateUnboxerIdCookie w) else w in
  let w' := snd (getTotalItemsFromDB onlyCoverts onlyPersonal w) in
  table w' = table w /\ serial w' = serial w /\ background w' = background w
  /\ rolls w' = rolls w /\ db_calls w' = S (db_calls w)
  /\ jar w' = jar w0 /\ uuid_draws w' = uuid_draws w0.
Proof.
  destruct (getOrCreate_frame w) as (id & w1 & E & Ht & Hs & Hd & Hc & Hb & Hr).
  unfold getTotalItemsFromDB, query_condition, try_catch, bind,
    db_select_value, statement.
  destruct (truthy onlyPersonal); rewrite ?E; unfold ret; cbn [fst snd].
  - rewrite Hd. destruct (db_throws _); [cbn; auto 10|].
    destruct (truthy onlyCoverts); cbn -[filter]; auto 10.
  - destruct (db_throws _); [cbn; auto 10|].
    destruct (truthy onlyCoverts); cbn -[filter]; auto 10.
Qed.

(** Every exported action, and [unboxCase] with its deferred write
    settled, only appends rows. *)
Lemma actions_grow (caseId : string) (cd : CaseDataType) (it : ItemType)
  (data : list Payload) (onlyCoverts onlyPersonal : option bool) (w : World) :
  Forall (grows w)
    [ snd (unboxCase caseId w);
      snd (served (unboxCase caseId) w);
      snd (addItemToDB cd it w);
      snd (addItemsToDB data w);
      snd (getItemsFromDB onlyCoverts onlyPersonal w);
      snd (getTotalItemsFromDB onlyCoverts onlyPersonal w) ].
Proof.
  assert (Hu : grows w (snd (unboxCase caseId w))).
  { destruct (unboxCase_frame caseId w) as (Ht & Hs & _). apply grows_same; assumption. }
  repeat constructor.
  - exact Hu.
  - apply served_grows. exact Hu.
  - apply addItemToDB_grows.
  - apply addItemsToDB_grows.
  - destruct (getItemsFromDB_frame onlyCoverts onlyPersonal w) as (Ht & Hs & _).
    apply grows_same; assumption.
  - destruct (getTotalItemsFromDB_frame onlyCoverts onlyPersonal w) as (Ht & Hs & _).
    apply grows_same; assumption.
Qed.

Lemma grows_prefix (w w' : World) :
  grows w w' -> table w `prefix_of` table w' /\ serial w <= serial w'.
Proof. intros (new & Ht & Hs & _). split; [exists new; exact Ht | lia]. Qed.

Lemma grows_ids_fresh (w w' : World) : ids_fresh w -> grows w w' -> ids_fresh w'.
Proof.
  intros [Hnd Hlt] (new & Ht & Hs & Hi). unfold ids_fresh. rewrite Ht, Hs. split.
  - rewrite fmap_app, Hi. apply NoDup_app. split; [exact Hnd|]. split.
    + intros x Hx Hx'. apply list_elem_of_fmap in Hx as (r & -> & Hr).
      apply elem_of_seqZ in Hx'. specialize (Hlt r Hr). lia.
    + apply NoDup_seqZ.
  - intros r Hr. apply elem_of_app in Hr as [Hr|Hr].
    + specialize (Hlt r Hr). lia.
    + assert (Hin : row_id r ∈ row_id <$> new) by (apply list_elem_of_fmap_2; exact Hr).
      rewrite Hi in Hin. apply elem_of_seqZ in Hin. lia.
Qed.

(** X6. No action updates or deletes a row: after [unboxCase] (also once
    its deferred write is settled), [addItemToDB], [addItemsToDB],
    [getItemsFromDB] and [getTotalItemsFromDB], whatever the driver does,
    the table starts with the table before, and the id sequence has not
    gone back. *)
Theorem rows_are_never_changed (caseId : string) (cd : CaseDataType)
  (it : ItemType) (data : list Payload) (onlyCoverts onlyPersonal : option bool)
  (w : World) :
  Forall (fun w' => table w `prefix_of` table w' /\ serial w <= serial w')
    [ snd (unboxCase caseId w);
      snd (served (unboxCase caseId) w);
      snd (addItemToDB cd it w);
      snd (addItemsToDB data w);
      snd (getItemsFromDB onlyCoverts onlyPersonal w);
      snd (getTotalItemsFromDB onlyCoverts onlyPersonal w) ].
Proof.
  eapply Forall_impl; [apply actions_grow|]. intros w'. apply grows_prefix.
Qed.

(** X7. Ids stay unique: when no id is stored twice and every stored id
    is below the next value of the sequence, the same holds after every
    exported action, and after [unboxCase] with its deferred write
    settled. *)
Theorem ids_stay_fresh (caseId : string) (cd : CaseDataType)
  (it : ItemType) (data : list Payload) (onlyCoverts onlyPersonal : option bool)
  (w : World) :
  ids_fresh w ->
  Forall ids_fresh
    [ snd (unboxCase caseId w);
      snd (served (unboxCase caseId) w);
      snd (addItemToDB cd it w);
      snd (addItemsToDB data w);
      snd (getItemsFromDB onlyCoverts onlyPersonal w);
      snd (getTotalItemsFromDB onlyCoverts onlyPersonal w) ].
Proof.
  intros Hw. eapply Forall_impl; [apply actions_grow|].
  intros w'. apply grows_ids_fresh. exact Hw.
Qed.


(** *** Queries against the table *)

(** How the rows query runs when the driver takes it. *)
Lemma getItemsFromDB_run (onlyCoverts onlyPersonal : option bool) (w : World) :
  db_throws (db_calls w) = false ->
  exists id cond,
    requester w = Ret id
    /\ (forall r, where_ cond r = satisfies_filters onlyCoverts onlyPersonal id r)
    /\ fst (getItemsFromDB onlyCoverts onlyPersonal w)
       = Ret (Value (select_rows cond 100 (table w))).
Proof.
  intros Hok.
  destruct (query_condition_run onlyCoverts onlyPersonal w)
    as (id & cond & w' & Hid & Hq & Ht & _ & Hd & Hc).
  exists id, cond. split; [exact Hid|]. split; [exact Hc|].
  unfold getItemsFromDB, try_catch, bind, db_select, statement.
  rewrite Hq, Hd, Hok. cbn -[select_rows]. rewrite Ht. reflexivity.
Qed.

Lemma select_rows_count (cond : option SQL) (n : nat) (t : list ItemTypeDB) :
  length (select_rows cond n t)
  = Nat.min n (length (filter (fun r => where_ cond r) t)).
Proof.
  unfold select_rows. rewrite length_take. f_equal.
  apply Permutation_length. apply merge_sort_Permutation.
Qed.

(** X9. The two queries agree: for the same flags in the same world,
    when the driver answers, [getItemsFromDB] returns as many rows as
    pass the filters, up to 100; with a filter flag set that is the
    smaller of 100 and the number [getTotalItemsFromDB] answers. *)
Theorem rows_and_total_agree (onlyCoverts onlyPersonal : option bool) (w : World) :
  db_throws (db_calls w) = false ->
  exists id rows,
    requester w = Ret id
    /\ fst (getItemsFromDB onlyCoverts onlyPersonal w) = Ret (Value rows)
    /\ length rows
       = Nat.min 100
           (length (filter (fun r => satisfies_filters onlyCoverts onlyPersonal id r)
                           (table w)))
    /\ (truthy onlyCoverts = true \/ truthy onlyPersonal = true ->
        exists n,
          fst (getTotalItemsFromDB onlyCoverts onlyPersonal w) = Ret (Value n)
          /\ Z.of_nat (length rows) = Z.min 100 n).
Proof.
  intros Hok.
  destruct (getItemsFromDB_run onlyCoverts onlyPersonal w Hok)
    as (id & cond & Hid & Hc & E).
  destruct (getTotalItemsFromDB_run onlyCoverts onlyPersonal w Hok)
    as (id' & Hid' & E').
  rewrite Hid in Hid'. injection Hid' as <-.
  exists id, (select_rows cond 100 (table w)).
  split; [exact Hid|]. split; [exact E|].
  rewrite select_rows_count, (filter_where cond _ (table w) Hc).
  split; [reflexivity|]. intros Hf.
  assert (truthy onlyCoverts || truthy onlyPersonal = true) as Hor
    by (apply orb_true_iff; exact Hf).
  rewrite Hor in E'. cbn [default] in E'.
  exists (Z.of_nat (length
            (filter (fun r => satisfies_filters onlyCoverts onlyPersonal id r)
                    (table w)))).
  split; [exact E'|]. lia.
Qed.

(** X10. The unfiltered total is an upper bound of the number of rows:
    when the ids are distinct and positive and the driver answers,
    [getTotalItemsFromDB] without flags answers at least the number of
    rows of the table, and exactly that number when no id exceeds it
    (no gap in the ids). *)
Theorem unfiltered_total_bounds_count (onlyCoverts onlyPersonal : option bool)
  (w : World) :
  db_throws (db_calls w) = false ->
  truthy onlyCoverts = false -> truthy onlyPersonal = false ->
  NoDup (row_id <$> table w) ->
  (forall r, r ∈ table w -> 1 <= row_id r) ->
  exists n,
    fst (getTotalItemsFromDB onlyCoverts onlyPersonal w) = Ret (Value n)
    /\ Z.of_nat (length (table w)) <= n
    /\ ((forall r, r ∈ table w -> row_id r <= Z.of_nat (length (table w))) ->
        n = Z.of_nat (length (table w))).
Proof.
  intros Hok Ec Ep Hnd Hpos.
  destruct (getTotalItemsFromDB_run onlyCoverts onlyPersonal w Hok) as (id & _ & E).
  rewrite Ec, Ep in E. cbn [orb] in E.
  destruct (sql_max (row_id <$> table w)) as [m|] eqn:Em; cbn [default] in E.
  - exists m. split; [exact E|].
    apply sql_max_spec in Em as [Hm Hall].
    assert (Hle : Z.of_nat (length (table w)) <= m).
    { assert (Hsub : (row_id <$> table w) ⊆+ seqZ 1 m).
      { apply NoDup_submseteq; [exact Hnd|]. intros x Hx.
        apply elem_of_seqZ. specialize (Hall x Hx).
        apply list_elem_of_fmap in Hx as (r & -> & Hr). specialize (Hpos r Hr). lia. }
      apply submseteq_length in Hsub. rewrite length_fmap, length_seqZ in Hsub.
      apply list_elem_of_fmap in Hm as (r & -> & Hr). specialize (Hpos r Hr). lia. }
    split; [exact Hle|]. intros Hdense.
    apply list_elem_of_fmap in Hm as (r & -> & Hr). specialize (Hdense r Hr). lia.
  - exists 0. split; [exact E|].
    destruct (table w) as [|r t]; [cbn; split; [lia | reflexivity] | discriminate Em].
Qed.

Lemma select_rows_newest (cond : option SQL) (n : nat) (t : list ItemTypeDB)
  (new : ItemTypeDB) :
  where_ cond new = true ->
  (forall r, r ∈ t -> row_id r < row_id new) ->
  exists rest, select_rows cond (S n) (t ++ [new])%list = new :: rest.
Proof.
  intros Hc Hlt. unfold select_rows.
  set (hits := filter (fun r => where_ cond r) (t ++ [new])%list).
  assert (Hnew : new ∈ merge_sort desc_id hits).
  { rewrite merge_sort_Permutation. apply list_elem_of_filter.
    split; [rewrite Hc; exact I | apply elem_of_app; right; left]. }
  assert (Hin : forall r, r ∈ merge_sort desc_id hits -> r = new \/ r ∈ t).
  { intros r Hr. rewrite merge_sort_Permutation in Hr.
    apply list_elem_of_filter in Hr as [_ Hr].
    apply elem_of_app in Hr as [Hr|Hr]; [right; exact Hr|].
    left. apply list_elem_of_singleton in Hr. exact Hr. }
  pose proof (StronglySorted_merge_sort desc_id hits) as Hs.
  destruct (merge_sort desc_id hits) as [|h tl]; [inversion Hnew|].
  apply StronglySorted_inv in Hs as [_ Hall].
  assert (Hle : row_id new <= row_id h).
  { apply elem_of_cons in Hnew as [->|Hnew]; [lia|].
    rewrite Forall_forall in Hall. exact (Hall new Hnew). }
  destruct (Hin h) as [->|Hh]; [left | eauto |].
  specialize (Hlt h Hh). lia.
Qed.

Lemma requester_ext (w w2 : World) :
  jar w2 = jar w -> uuid_draws w2 = uuid_draws w -> requester w2 = requester w.
Proof.
  intros Hj Hu. unfold requester, getOrCreateUnboxerIdCookie. run. rewrite Hj.
  destruct (jar w !! "unboxerId") as [c|]; [destruct (isValidUUID (value c))|];
    cbn; rewrite ?Hu; reflexivity.
Qed.

Lemma requester_stable (w : World) (id : string) (w1 : World) :
  getOrCreateUnboxerIdCookie w = (Ret id, w1) -> requester w1 = Ret id.
Proof.
  intros E. destruct (getOrCreate_cookie w id w1 E) as (Hv & c & Hj & <-).
  unfold requester. rewrite (getOrCreate_reuses w1 c Hj Hv). reflexivity.
Qed.

(** X11. Read after write: when every stored id is below the next value
    of the sequence and the driver takes both statements, the row that a
    successful [addItemToDB] stored is the first row [getItemsFromDB]
    returns right after, for every choice of [onlyPersonal], and for
    [onlyCoverts] too when the item's rarity is Covert or Extraordinary. *)
Theorem inserted_row_is_listed_first (cd : CaseDataType) (it : ItemType)
  (onlyCoverts onlyPersonal : option bool) (w : World) :
  (forall r, r ∈ table w -> row_id r < serial w) ->
  trusted_image (case_image (caseInfo cd)) = true ->
  trusted_image (item_image it) = true ->
  db_throws (db_calls w) = false ->
  db_throws (S (db_calls w)) = false ->
  (truthy onlyCoverts = true ->
   rarity_name (item_rarity it) = "Covert"
   \/ rarity_name (item_rarity it) = "Extraordinary") ->
  exists id rest,
    requester w = Ret id
    /\ fst (addItemToDB cd it w) = Ret true
    /\ fst (getItemsFromDB onlyCoverts onlyPersonal (snd (addItemToDB cd it w)))
       = Ret (Value (row_of (serial w) (caseInfo cd) it id :: rest)).
Proof.
  intros Hlt Hti Htj Hok Hok2 Hcov.
  destruct (getOrCreate_frame w) as (id & w1 & E & Ht & Hs & Hd & _).
  pose proof (addItemToDB_run cd it w id w1 E) as Ha.
  rewrite valid_payload, Hti, Htj, Hd, Hok in Ha. cbn [negb andb] in Ha.
  cbn zeta in Ha. rewrite Ha. cbn [fst snd].
  set (new := row_of _ (caseInfo cd) it id).
  set (w2 := with_rows _ _ _).
  assert (Hok' : db_throws (db_calls w2) = false)
    by (unfold w2; cbn; rewrite ?Hd; exact Hok2).
  destruct (getItemsFromDB_run onlyCoverts onlyPersonal w2 Hok')
    as (id2 & cond & Hid2 & Hc & Eq).
  assert (Hid : requester w2 = Ret id).
  { rewrite (requester_ext w1 w2) by reflexivity. exact (requester_stable w id w1 E). }
  rewrite Hid in Hid2. injection Hid2 as <-.
  assert (Hnew : where_ cond new = true).
  { rewrite Hc. unfold satisfies_filters, is_covert, is_personal. cbn.
    rewrite String.eqb_refl.
    destruct (truthy onlyCoverts); [|destruct (truthy onlyPersonal); reflexivity].
    destruct (Hcov eq_refl) as [-> | ->]; destruct (truthy onlyPersonal); reflexivity. }
  destruct (select_rows_newest cond 99 (table w1) new Hnew) as (rest & Hsel).
  { intros r Hr. rewrite Ht in Hr. specialize (Hlt r Hr). cbn. rewrite Hs. exact Hlt. }
  exists id, rest. unfold requester. rewrite E. split; [reflexivity|].
  split; [reflexivity|]. rewrite Eq. unfold w2. cbn [table with_rows with_db_calls].
  rewrite Hsel. unfold new. cbn [serial with_db_calls]. rewrite Hs. reflexivity.
Qed.

(** *** One payload or many *)

Lemma stored_phase_coalesce (p : Nullish string) :
  stored_phase (coalesce p Null) = stored_phase p.
Proof. destruct p; reflexivity. Qed.

Lemma number_rows_batch (id : string) (data : list Payload) (next : Z) :
  number_rows next (batch_values id <$> data)
  = imap (fun i p => row_of (next + Z.of_nat i) (caseData p) (itemData p) id) data.
Proof.
  revert next. induction data as [|p data IH]; intros next; [reflexivity|].
  rewrite fmap_cons, imap_cons. cbn [number_rows]. f_equal.
  - unfold batch_values. rewrite store_row_of by apply stored_phase_coalesce.
    f_equal. cbn. lia.
  - rewrite IH. apply imap_ext. intros i p' _. cbn. f_equal. lia.
Qed.

(** X12. A batch of one is the single insert: for the same case, item
    and world, [addItemsToDB] on the one payload and [addItemToDB] give
    the same answer and leave the same table, id sequence, cookie jar
    and statement count (the console lines differ). *)
Theorem batch_of_one (cd : CaseDataType) (it : ItemType) (w : World) :
  let one := addItemToDB cd it w in
  let many := addItemsToDB [ {| caseData := caseInfo cd; itemData := it |} ] w in
  fst many = fst one
  /\ table (snd many) = table (snd one)
  /\ serial (snd many) = serial (snd one)
  /\ jar (snd many) = jar (snd one)
  /\ db_calls (snd many) = db_calls (snd one)
  /\ uuid_draws (snd many) = uuid_draws (snd one).
Proof.
  destruct (getOrCreate_frame w) as (id & w1 & E & _).
  cbn zeta. rewrite (addItemToDB_run cd it w id w1 E).
  rewrite (addItemsToDB_run _ w id w1 E).
  unfold safeParse, z_array. cbn [forallb]. rewrite andb_true_r.
  destruct (negb _); [cbn; auto 10|].
  cbn zeta. destruct (db_throws _); [cbn; auto 10|].
  rewrite number_rows_batch. cbn -[row_of Z.add].
  rewrite Z.add_0_r. auto 10.
Qed.

(** X13. [addItemsToDB] is all or nothing.  It answers [true] exactly
    when the batch is not empty, passes the validation and the driver
    takes the insert; the table then gains one row per payload, in the
    order of the batch, under consecutive ids from the sequence, each
    with the fields of its payload and the requester's identifier.
    Otherwise it answers [false] and leaves the table and the id
    sequence as they were. *)
Theorem addItemsToDB_all_or_nothing (data : list Payload) (w : World) :
  exists id,
    requester w = Ret id
    /\ (fst (addItemsToDB data w) = Ret true
        <-> data <> []
            /\ safeParse (z_array dataSchema) data = true
            /\ db_throws (db_calls w) = false)
    /\ (fst (addItemsToDB data w) = Ret true ->
        table (snd (addItemsToDB data w))
        = (table w
           ++ imap (fun i p =>
                      row_of (serial w + Z.of_nat i) (caseData p) (itemData p) id)
                   data)%list
        /\ serial (snd (addItemsToDB data w)) = serial w + Z.of_nat (length data))
    /\ (fst (addItemsToDB data w) <> Ret true ->
        fst (addItemsToDB data w) = Ret false
        /\ table (snd (addItemsToDB data w)) = table w
        /\ serial (snd (addItemsToDB data w)) = serial w).
Proof.
  destruct (getOrCreate_frame w) as (id & w1 & E & Ht & Hs & Hd & _).
  exists id. unfold requester. rewrite E. split; [reflexivity|].
  rewrite (addItemsToDB_run data w id w1 E), Hd.
  destruct (safeParse (z_array dataSchema) data) eqn:V; cbn [negb].
  - destruct data as [|p data].
    + cbn [fst snd]. split; [split; [discriminate | intros (H & _); contradiction]|].
      split; [discriminate|]. intros _. cbn. auto.
    + cbn zeta. destruct (db_throws (db_calls w)) eqn:F; cbn [fst snd].
      * split; [split; [discriminate | intros (_ & _ & H); discriminate]|].
        split; [discriminate|]. intros _. cbn. auto.
      * split; [split; [intros _; repeat split; discriminate | reflexivity]|].
        split; [|contradiction]. intros _.
        rewrite number_rows_batch. cbn -[imap Z.of_nat fmap].
        rewrite Ht, Hs, length_fmap. auto.
  - cbn [fst snd]. split; [split; [discriminate | intros (_ & H & _); discriminate]|].
    split; [discriminate|]. intros _. cbn. auto.
Qed.

(** X14. [addItemToDB] answers [true] exactly when both images are
    trusted and the driver takes the insert; the table then gains
    exactly one row, under the next id, with the fields of the case and
    the item and the requester's identifier.  Otherwise it answers
    [false] and leaves the table and the id sequence as they were. *)
Theorem addItemToDB_all_or_nothing (cd : CaseDataType) (it : ItemType) (w : World) :
  exists id,
    requester w = Ret id
    /\ (fst (addItemToDB cd it w) = Ret true
        <-> trusted_image (case_image (caseInfo cd)) = true
            /\ trusted_image (item_image it) = true
            /\ db_throws (db_calls w) = false)
    /\ (fst (addItemToDB cd it w) = Ret true ->
        table (snd (addItemToDB cd it w))
        = (table w ++ [row_of (serial w) (caseInfo cd) it id])%list
        /\ serial (snd (addItemToDB cd it w)) = serial w + 1)
    /\ (fst (addItemToDB cd it w) <> Ret true ->
        fst (addItemToDB cd it w) = Ret false
        /\ table (snd (addItemToDB cd it w)) = table w
        /\ serial (snd (addItemToDB cd it w)) = serial w).
Proof.
  destruct (getOrCreate_frame w) as (id & w1 & E & Ht & Hs & Hd & _).
  exists id. unfold requester. rewrite E. split; [reflexivity|].
  rewrite (addItemToDB_run cd it w id w1 E), valid_payload, Hd.
  destruct (trusted_image (case_image (caseInfo cd)));
    destruct (trusted_image (item_image it)); cbn [negb andb];
    try (cbn [fst snd];
         split; [split; [discriminate | intros (H1 & H2 & _); discriminate]|];
         split; [discriminate|]; intros _; cbn; auto).
  cbn zeta. destruct (db_throws (db_calls w)); cbn [fst snd].
  - split; [split; [discriminate | intros (_ & _ & H); discriminate]|].
    split; [discriminate|]. intros _. cbn. auto.
  - split; [split; auto|]. split; [|contradiction]. intros _.
    cbn -[row_of]. rewrite Ht, Hs. auto.
Qed.

Lemma getOrCreate_again (w : World) (id : string) (w1 w2 : World) :
  getOrCreateUnboxerIdCookie w = (Ret id, w1) ->
  jar w2 = jar w1 ->
  getOrCreateUnboxerIdCookie w2 = (Ret id, w2).
Proof.
  intros E Hj. destruct (getOrCreate_cookie w id w1 E) as (Hv & c & Hc & <-).
  apply getOrCreate_reuses; [rewrite Hj; exact Hc | exact Hv].
Qed.

(** X15. One visitor, one identifier: two inserts in a row that both
    succeed store two rows under consecutive ids that carry the same
    [unboxerId], the identifier of the requester of the first call, also
    when that call had to create the cookie. *)
Theorem successive_inserts_share_identifier
  (cd1 cd2 : CaseDataType) (it1 it2 : ItemType) (w : World) :
  trusted_image (case_image (caseInfo cd1)) = true ->
  trusted_image (item_image it1) = true ->
  trusted_image (case_image (caseInfo cd2)) = true ->
  trusted_image (item_image it2) = true ->
  db_throws (db_calls w) = false ->
  db_throws (S (db_calls w)) = false ->
  exists id,
    requester w = Ret id
    /\ fst (addItemToDB cd2 it2 (snd (addItemToDB cd1 it1 w))) = Ret true
    /\ table (snd (addItemToDB cd2 it2 (snd (addItemToDB cd1 it1 w))))
       = (table w ++ [ row_of (serial w) (caseInfo cd1) it1 id;
                       row_of (serial w + 1) (caseInfo cd2) it2 id ])%list.
Proof.
  intros H1 H2 H3 H4 Hok Hok2.
  destruct (getOrCreate_frame w) as (id & w1 & E & Ht & Hs & Hd & _).
  exists id. unfold requester. rewrite E. split; [reflexivity|].
  rewrite (addItemToDB_run cd1 it1 w id w1 E), valid_payload, H1, H2, Hd, Hok.
  cbn [negb andb]. cbn zeta. cbn [snd].
  set (w2 := with_rows _ _ _).
  assert (E2 : getOrCreateUnboxerIdCookie w2 = (Ret id, w2))
    by (apply (getOrCreate_again w id w1 w2 E); reflexivity).
  rewrite (addItemToDB_run cd2 it2 w2 id w2 E2), valid_payload, H3, H4.
  cbn [negb andb]. cbn zeta.
  assert (db_throws (db_calls w2) = false) as ->
    by (unfold w2; cbn; rewrite ?Hd; exact Hok2).
  split; [reflexivity|]. unfold w2. cbn -[row_of]. rewrite Ht, Hs, <- app_assoc.
  reflexivity.
Qed.

(** X16. The personal total counts the new row: right after a successful
    [addItemToDB], [getTotalItemsFromDB] with [onlyPersonal] (and without
    [onlyCoverts]) answers one more than the number of rows the table
    held for the requester before. *)
Theorem personal_total_counts_new_row (cd : CaseDataType) (it : ItemType)
  (onlyCoverts onlyPersonal : option bool) (w : World) :
  trusted_image (case_image (caseInfo cd)) = true ->
  trusted_image (item_image it) = true ->
  db_throws (db_calls w) = false ->
  db_throws (S (db_calls w)) = false ->
  truthy onlyCoverts = false -> truthy onlyPersonal = true ->
  exists id,
    requester w = Ret id
    /\ fst (getTotalItemsFromDB onlyCoverts onlyPersonal (snd (addItemToDB cd it w)))
       = Ret (Value (Z.of_nat (length (filter (fun r => is_personal id r) (table w)))
                     + 1)).
Proof.
  intros Hti Htj Hok Hok2 Ec Ep.
  destruct (getOrCreate_frame w) as (id & w1 & E & Ht & Hs & Hd & _).
  exists id. unfold requester. rewrite E. split; [reflexivity|].
  rewrite (addItemToDB_run cd it w id w1 E), valid_payload, Hti, Htj, Hd, Hok.
  cbn [negb andb]. cbn zeta. cbn [snd].
  set (w2 := with_rows _ _ _).
  assert (Hok' : db_throws (db_calls w2) = false)
    by (unfold w2; cbn; rewrite ?Hd; exact Hok2).
  destruct (getTotalItemsFromDB_run onlyCoverts onlyPersonal w2 Hok')
    as (id2 & Hid2 & Eq).
  assert (Hid : requester w2 = Ret id).
  { rewrite (requester_ext w1 w2) by reflexivity. exact (requester_stable w id w1 E). }
  rewrite Hid in Hid2. injection Hid2 as <-.
  rewrite Eq, Ec, Ep. cbn [orb from_option Datatypes.id]. do 2 f_equal.
  unfold w2. cbn [table with_rows with_db_calls]. rewrite Ht.
  rewrite (list_filter_iff _ (fun r => is_personal id r)).
  - rewrite filter_app, length_app, filter_cons_True, filter_nil.
    + cbn [length]. lia.
    + unfold is_personal. cbn. rewrite String.eqb_refl. exact I.
  - intros r. unfold satisfies_filters. rewrite Ec, Ep. reflexivity.
Qed.

End Actions.

(* ===================================================================== *)
(** ** The actions at work on the sample catalog *)

Module Runs.
Import Sample.

Example randomUUID_zero :
  Crypto.randomUUID 0 = "00000000-0000-4000-8000-000000000000".
Proof. reflexivity. Qed.

Example randomUUID_ones :
  Crypto.randomUUID (2 ^ 128 - 1) = "ffffffff-ffff-4fff-bfff-ffffffffffff".
Proof. vm_compute. reflexivity. Qed.

Example isValidUUID_upper_case :
  isValidUUID "0123ABCD-89ef-5abc-Babc-0123456789AB" = true.
Proof. vm_compute. reflexivity. Qed.

Example isValidUUID_nil : isValidUUID "00000000-0000-0000-0000-000000000000" = true.
Proof. vm_compute. reflexivity. Qed.

Example isValidUUID_version6 :
  isValidUUID "01234567-89ab-6abc-8abc-0123456789ab" = false.
Proof. vm_compute. reflexivity. Qed.

Example isValidUUID_trailing :
  isValidUUID "01234567-89ab-4abc-8abc-0123456789ab0" = false.
Proof. vm_compute. reflexivity. Qed.

Example isValidUUID_empty : isValidUUID "" = false.
Proof. vm_compute. reflexivity. Qed.

Example first_visit :
  fst (getOrCreateUnboxerIdCookie entropy blank)
  = Ret "35c8ed5c-60c0-4cf3-957c-4a7fb979379e"
  /\ jar (snd (getOrCreateUnboxerIdCookie entropy blank)) !! "unboxerId"
     = Some {| value := "35c8ed5c-60c0-4cf3-957c-4a7fb979379e";
               expires := Some 1731536000000; httpOnly := true |}.
Proof. split; vm_compute; reflexivity. Qed.

(** A known case is opened and the row arrives once the runtime settles
    the deferred write; with a failing driver the item is the same and
    the table is as before. *)
Example unbox_bravo :
  fst (unboxCase info catalog pick entropy "crate-4001" returning)
  = Ret (Value doppler)
  /\ table (snd (unboxCase info catalog pick entropy "crate-4001" returning))
     = table returning
  /\ (row_id <$> table (snd (served reliable
        (unboxCase info catalog pick entropy "crate-4001") returning)))
     = [2; 4; 1; 3; 5]
  /\ (row_id <$> table (snd (served broken
        (unboxCase info catalog pick entropy "crate-4001") returning)))
     = [2; 4; 1; 3]
  /\ console (snd (served broken
        (unboxCase info catalog pick entropy "crate-4001") returning))
     = ["Error adding item:"].
Proof. repeat split; vm_compute; reflexivity. Qed.

Example query_returning :
  (exists rows,
      fst (getItemsFromDB entropy reliable None None returning) = Ret (Value rows)
      /\ row_id <$> rows = [4; 3; 2; 1])
  /\ (exists rows,
      fst (getItemsFromDB entropy reliable (Some true) None returning) = Ret (Value rows)
      /\ row_id <$> rows = [3; 2; 1])
  /\ (exists rows,
      fst (getItemsFromDB entropy reliable (Some false) (Some true) returning)
      = Ret (Value rows)
      /\ row_id <$> rows = [4; 2])
  /\ (exists rows,
      fst (getItemsFromDB entropy reliable (Some true) (Some true) returning)
      = Ret (Value rows)
      /\ row_id <$> rows = [2])
  /\ fst (getItemsFromDB entropy broken None None returning) = Ret JsFalse.
Proof.
  repeat split; try (eexists; split; [vm_compute; reflexivity | reflexivity]).
Qed.

Example totals_returning :
  fst (getTotalItemsFromDB entropy reliable None None returning) = Ret (Value 4)
  /\ fst (getTotalItemsFromDB entropy reliable (Some true) None returning) = Ret (Value 3)
  /\ fst (getTotalItemsFromDB entropy reliable None (Some true) returning) = Ret (Value 2)
  /\ fst (getTotalItemsFromDB entropy reliable (Some true) (Some true) returning)
     = Ret (Value 1)
  /\ fst (getTotalItemsFromDB entropy broken None None returning) = Ret JsFalse.
Proof. repeat split; vm_compute; reflexivity. Qed.

Example empty_batch :
  fst (addItemsToDB entropy reliable [] returning) = Ret false.
Proof. vm_compute. reflexivity. Qed.

End Runs.

(* ===================================================================== *)
(** ** The properties at concrete inputs *)

(** C1 on a first visit, a returning visitor and a tampered cookie. *)
Lemma getOrCreateUnboxerIdCookie_cases_witness :
  (jar Sample.blank !! "unboxerId" = None
   /\ getOrCreateUnboxerIdCookie Sample.entropy Sample.blank
      = (Ret (value (fresh_cookie Sample.entropy Sample.blank)),
         after_fresh Sample.entropy Sample.blank))
  /\ (jar Sample.returning !! "unboxerId" = Some (Sample.cookie_of Sample.visitor)
      /\ isValidUUID (value (Sample.cookie_of Sample.visitor)) = true
      /\ getOrCreateUnboxerIdCookie Sample.entropy Sample.returning
         = (Ret Sample.visitor, Sample.returning))
  /\ (jar Sample.tampered !! "unboxerId"
        = Some (Sample.cookie_of "01234567-89ab-6cde-8f01-23456789abcd")
      /\ isValidUUID "01234567-89ab-6cde-8f01-23456789abcd" = false
      /\ getOrCreateUnboxerIdCookie Sample.entropy Sample.tampered
         = (Ret (value (fresh_cookie Sample.entropy Sample.tampered)),
            after_fresh Sample.entropy Sample.tampered)).
Proof.
  split; [|split].
  - split; [reflexivity|].
    apply (getOrCreateUnboxerIdCookie_cases Sample.entropy Sample.blank).
    reflexivity.
  - split; [reflexivity|]. split; [vm_compute; reflexivity|].
    destruct (getOrCreateUnboxerIdCookie_cases Sample.entropy Sample.returning)
      as (_ & H & _).
    apply (H (Sample.cookie_of Sample.visitor)).
    + reflexivity.
    + vm_compute; reflexivity.
  - split; [reflexivity|]. split; [vm_compute; reflexivity|].
    destruct (getOrCreateUnboxerIdCookie_cases Sample.entropy Sample.tampered)
      as (_ & _ & H & _).
    apply (H (Sample.cookie_of "01234567-89ab-6cde-8f01-23456789abcd")).
    + reflexivity.
    + vm_compute; reflexivity.
Defined.

Lemma sample_catalog_has_no (caseId : string) :
  caseId <> "crate-4001" -> caseId <> "crate-custom-dopplers" ->
  forall c, c ∈ Sample.catalog -> case_id (Sample.info c) <> caseId.
Proof.
  intros H1 H2 c Hc. unfold Sample.catalog in Hc.
  apply elem_of_cons in Hc as [->|Hc]; [cbn; congruence|].
  apply elem_of_cons in Hc as [->|Hc]; [cbn; congruence|].
  inversion Hc.
Qed.

(** C2 on an id the sample catalog does not have. *)
Lemma unboxCase_unknown_case_witness :
  (forall c, c ∈ Sample.catalog -> case_id (Sample.info c) <> "crate-9999")
  /\ unboxCase Sample.info Sample.catalog Sample.pick Sample.entropy
       "crate-9999" Sample.returning
     = (Ret JsFalse,
        with_console ["unboxCase: Case id crate-9999 not found"] Sample.returning)
  /\ no_database_write Sample.returning
       (snd (unboxCase Sample.info Sample.catalog Sample.pick Sample.entropy
               "crate-9999" Sample.returning)).
Proof.
  assert (H : forall c, c ∈ Sample.catalog -> case_id (Sample.info c) <> "crate-9999")
    by (apply sample_catalog_has_no; discriminate).
  split; [exact H|].
  exact (unboxCase_unknown_case Sample.info Sample.catalog Sample.pick
           Sample.entropy "crate-9999" Sample.returning H).
Defined.

(** C3 on the custom case of the sample catalog. *)
Lemma unboxCase_custom_case_witness :
  Sample.custom ∈ Sample.catalog
  /\ startsWith (case_id (Sample.info Sample.custom)) "crate-custom" = true
  /\ no_database_write Sample.returning
       (snd (unboxCase Sample.info Sample.catalog Sample.pick Sample.entropy
               "crate-custom-dopplers" Sample.returning)).
Proof.
  assert (Hin : Sample.custom ∈ Sample.catalog) by (right; left).
  split; [exact Hin|]. split; [reflexivity|].
  apply (unboxCase_custom_case Sample.info Sample.catalog Sample.pick
           Sample.entropy Sample.custom Sample.returning Hin).
  reflexivity.
Defined.

(** C4 on the Bravo case, with a driver that rejects every statement. *)
Lemma unboxCase_returns_drawn_item_witness :
  (exists c, c ∈ Sample.catalog /\ case_id (Sample.info c) = "crate-4001")
  /\ fst (unboxCase Sample.info Sample.catalog Sample.pick Sample.entropy
            "crate-4001" Sample.returning)
     = Ret (Value Sample.doppler)
  /\ fst (served Sample.broken
            (unboxCase Sample.info Sample.catalog Sample.pick Sample.entropy
               "crate-4001") Sample.returning)
     = Ret (Value Sample.doppler).
Proof.
  assert (H : exists c, c ∈ Sample.catalog /\ case_id (Sample.info c) = "crate-4001").
  { exists Sample.bravo. split; [left | reflexivity]. }
  split; [exact H|].
  destruct (unboxCase_returns_drawn_item Sample.info Sample.catalog Sample.pick
              Sample.entropy Sample.broken "crate-4001" Sample.returning H)
    as (c' & Hf & _ & _ & Hu & Hs).
  vm_compute in Hf. injection Hf as <-.
  split; [exact Hu | exact Hs].
Defined.

(** C5 on a forged item, alone and inside a batch. *)
Lemma untrusted_image_rejected_witness :
  (untrusted {| caseData := Sample.info Sample.bravo; itemData := Sample.forged |}
   /\ addItemToDB Sample.info Sample.entropy Sample.reliable
        Sample.bravo Sample.forged Sample.returning
      = (Ret false,
         with_console ["addItemToDB: Error validating data:"] Sample.returning))
  /\ ({| caseData := Sample.info Sample.bravo; itemData := Sample.forged |}
        ∈ [ {| caseData := Sample.info Sample.bravo; itemData := Sample.doppler |};
            {| caseData := Sample.info Sample.bravo; itemData := Sample.forged |} ]
      /\ addItemsToDB Sample.entropy Sample.reliable
           [ {| caseData := Sample.info Sample.bravo; itemData := Sample.doppler |};
             {| caseData := Sample.info Sample.bravo; itemData := Sample.forged |} ]
           Sample.returning
         = (Ret false,
            with_console ["addItemsToDB: Error validating data:"] Sample.returning)).
Proof.
  assert (Hu : untrusted
                 {| caseData := Sample.info Sample.bravo; itemData := Sample.forged |})
    by (right; reflexivity).
  destruct (@untrusted_image_rejected Sample.Crate Sample.info Sample.entropy
              Sample.reliable) as [Hone Hmany].
  split.
  - split; [exact Hu|].
    exact (proj1 (proj2 (Hone Sample.bravo Sample.forged Sample.returning Hu))).
  - assert (Hin : {| caseData := Sample.info Sample.bravo; itemData := Sample.forged |}
        ∈ [ {| caseData := Sample.info Sample.bravo; itemData := Sample.doppler |};
            {| caseData := Sample.info Sample.bravo; itemData := Sample.forged |} ])
      by (right; left).
    split; [exact Hin|].
    exact (proj1 (proj2 (Hmany _ _ Sample.returning Hin Hu))).
Defined.

(** C6 on the four stored rows, with both filters. *)
Lemma getItemsFromDB_rows_witness :
  Sample.reliable (db_calls Sample.returning) = false
  /\ exists id rows,
       requester Sample.entropy Sample.returning = Ret id
       /\ fst (getItemsFromDB Sample.entropy Sample.reliable
                 (Some true) (Some true) Sample.returning) = Ret (Value rows)
       /\ (length rows <= 100)%nat
       /\ StronglySorted desc_id rows
       /\ (forall r, r ∈ rows -> r ∈ table Sample.returning)
       /\ (Some true = Some true ->
           forall r, r ∈ rows -> rarity r = "Covert" \/ rarity r = "Extraordinary")
       /\ (Some true = Some true -> forall r, r ∈ rows -> unboxerId r = id)
       /\ (forall r, r ∈ table Sample.returning ->
           satisfies_filters (Some true) (Some true) id r = true ->
           r ∈ rows
           \/ (length rows = 100%nat
               /\ forall r', r' ∈ rows -> row_id r <= row_id r')).
Proof.
  split; [reflexivity|].
  apply (getItemsFromDB_rows Sample.entropy Sample.reliable
           (Some true) (Some true) Sample.returning).
  reflexivity.
Defined.

(** C7 on the four stored rows: the greatest id without a filter, the
    count of the visitor's rows with [onlyPersonal]. *)
Lemma getTotalItemsFromDB_total_witness :
  Sample.reliable (db_calls Sample.returning) = false
  /\ (exists r, r ∈ table Sample.returning
        /\ (forall r', r' ∈ table Sample.returning -> row_id r' <= row_id r)
        /\ fst (getTotalItemsFromDB Sample.entropy Sample.reliable None None
                  Sample.returning) = Ret (Value (row_id r))
        /\ row_id r = 4)
  /\ fst (getTotalItemsFromDB Sample.entropy Sample.reliable None (Some true)
            Sample.returning)
     = Ret (Value (Z.of_nat (length
         (filter (fun r => satisfies_filters None (Some true) Sample.visitor r)
                 (table Sample.returning))))).
Proof.
  split; [reflexivity|]. split.
  - destruct (getTotalItemsFromDB_total Sample.entropy Sample.reliable None None
                Sample.returning eq_refl) as (id & _ & Hmax & _).
    destruct Hmax as (r & Hin & Hle & E); [reflexivity | reflexivity | discriminate|].
    exists r. split; [exact Hin|]. split; [exact Hle|]. split; [exact E|].
    vm_compute in E. injection E as E. symmetry. exact E.
  - destruct (getTotalItemsFromDB_total Sample.entropy Sample.reliable None
                (Some true) Sample.returning eq_refl) as (id & Hid & _ & Hcount).
    vm_compute in Hid. injection Hid as <-.
    apply Hcount. right. reflexivity.
Defined.

(** C8 with a driver that rejects every statement. *)
Lemma failures_become_false_witness :
  Sample.broken (db_calls Sample.returning) = true
  /\ safeParse dataSchema
       {| caseData := Sample.info Sample.bravo; itemData := Sample.forged |} = false
  /\ returned (fst (served Sample.broken
        (unboxCase Sample.info Sample.catalog Sample.pick Sample.entropy "crate-4001")
        Sample.returning))
  /\ fst (addItemToDB Sample.info Sample.entropy Sample.broken
            Sample.bravo Sample.doppler Sample.returning) = Ret false
  /\ fst (addItemToDB Sample.info Sample.entropy Sample.reliable
            Sample.bravo Sample.forged Sample.returning) = Ret false
  /\ fst (addItemsToDB Sample.entropy Sample.broken
            [ {| caseData := Sample.info Sample.bravo; itemData := Sample.doppler |} ]
            Sample.returning) = Ret false
  /\ fst (getItemsFromDB Sample.entropy Sample.broken None None Sample.returning)
     = Ret JsFalse
  /\ fst (getTotalItemsFromDB Sample.entropy Sample.broken None None Sample.returning)
     = Ret JsFalse.
Proof.
  split; [reflexivity|]. split; [reflexivity|].
  destruct (failures_become_false Sample.info Sample.catalog Sample.pick
              Sample.entropy Sample.broken "crate-4001" Sample.bravo Sample.doppler
              [ {| caseData := Sample.info Sample.bravo; itemData := Sample.doppler |} ]
              None None Sample.returning)
    as ((_ & Hserved & _) & _ & _ & Hrej).
  destruct (Hrej eq_refl) as (Hone & Hmany & Hrows & Htotal & _).
  destruct (failures_become_false Sample.info Sample.catalog Sample.pick
              Sample.entropy Sample.reliable "crate-4001" Sample.bravo Sample.forged
              [] None None Sample.returning)
    as (_ & Hinvalid & _).
  split; [exact Hserved|]. split; [exact Hone|].
  split; [apply Hinvalid; reflexivity|].
  split; [exact Hmany|]. split; [exact Hrows | exact Htotal].
Defined.

(** C9 on a batch of three payloads whose phases are a string, null and
    undefined. *)
Lemma addItemsToDB_rows_witness :
  let data :=
    [ {| caseData := Sample.info Sample.bravo; itemData := Sample.doppler |};
      {| caseData := Sample.info Sample.bravo; itemData := Sample.gloves |};
      {| caseData := Sample.info Sample.bravo; itemData := Sample.redline |} ] in
  data <> []
  /\ safeParse (z_array dataSchema) data = true
  /\ Sample.reliable (db_calls Sample.returning) = false
  /\ exists new,
       table (snd (addItemsToDB Sample.entropy Sample.reliable data Sample.returning))
       = (table Sample.returning ++ new)%list
       /\ fst (addItemsToDB Sample.entropy Sample.reliable data Sample.returning)
          = Ret true
       /\ Forall2 (inserted_for Sample.visitor) data new.
Proof.
  intros data.
  assert (Hne : data <> []) by discriminate.
  split; [exact Hne|]. split; [reflexivity|]. split; [reflexivity|].
  destruct (addItemsToDB_rows Sample.entropy Sample.reliable data Sample.returning)
    as (id & new & Hid & Ht & _ & Hok).
  vm_compute in Hid. injection Hid as <-.
  exists new. split; [exact Ht|].
  apply Hok; [exact Hne | reflexivity | reflexivity].
Defined.

(** C10 on the empty table. *)
Lemma getTotalItemsFromDB_null_is_zero_witness :
  Sample.reliable (db_calls Sample.blank) = false
  /\ table Sample.blank = []
  /\ select_value max_id None (table Sample.blank) = [None]
  /\ fst (getTotalItemsFromDB Sample.entropy Sample.reliable None None Sample.blank)
     = Ret (Value 0).
Proof.
  split; [reflexivity|]. split; [reflexivity|].
  destruct (getTotalItemsFromDB_null_is_zero Sample.entropy Sample.reliable
              None None Sample.blank eq_refl) as (_ & _ & H).
  apply H; reflexivity.
Defined.

(* ===================================================================== *)
(** ** The further properties at concrete inputs *)

(** X1 on the identifier of the sample visitor. *)
Lemma isValidUUID_shape_witness :
  isValidUUID Sample.visitor = true
  /\ uuid_shaped Sample.visitor
  /\ String.length Sample.visitor = 36%nat.
Proof.
  assert (H : isValidUUID Sample.visitor = true) by (vm_compute; reflexivity).
  split; [exact H|].
  destruct (isValidUUID_shape Sample.visitor) as [[Hs _] Hl].
  split; [exact (Hs H) | exact (Hl H)].
Defined.

(** X4 on the Bravo case, with a driver that takes the insert. *)
Lemma unboxCase_persists_witness :
  lookup_case Sample.info Sample.catalog "crate-4001" = Some Sample.bravo
  /\ startsWith (case_id (Sample.info Sample.bravo)) "crate-custom" = false
  /\ background Sample.returning = []
  /\ Sample.reliable (db_calls Sample.returning) = false
  /\ table (snd (served Sample.reliable
                   (unboxCase Sample.info Sample.catalog Sample.pick Sample.entropy
                      "crate-4001") Sample.returning))
     = (table Sample.returning
        ++ [row_of 5 (Sample.info Sample.bravo) Sample.doppler Sample.visitor])%list.
Proof.
  split; [reflexivity|]. split; [reflexivity|]. split; [reflexivity|].
  split; [reflexivity|].
  destruct (unboxCase_persists Sample.info Sample.catalog Sample.pick Sample.entropy
              Sample.reliable "crate-4001" Sample.bravo Sample.returning
              eq_refl eq_refl eq_refl eq_refl eq_refl)
    as (id & Hid & _ & _ & _ & _ & Hok & _).
  vm_compute in Hid. injection Hid as <-.
  exact (proj1 (Hok eq_refl)).
Defined.

(** X5 on the case with a forged item. *)
Lemma unboxCase_invalid_payload_witness :
  lookup_case Sample.info Counterfeit.catalog "crate-7" = Some Counterfeit.shady
  /\ startsWith (case_id (Sample.info Counterfeit.shady)) "crate-custom" = false
  /\ untrusted {| caseData := Sample.info Counterfeit.shady;
                  itemData := fst (Sample.pick Counterfeit.shady
                                     (rolls Sample.returning)) |}
  /\ unboxCase Sample.info Counterfeit.catalog Sample.pick Sample.entropy
       "crate-7" Sample.returning
     = (Ret (Value Sample.forged),
        with_background [Resolved false]
          (with_console ["addItemToDB: Error validating data:"]
             (with_rolls 2 Sample.returning))).
Proof.
  assert (Hu : untrusted {| caseData := Sample.info Counterfeit.shady;
                            itemData := fst (Sample.pick Counterfeit.shady
                                               (rolls Sample.returning)) |})
    by (right; reflexivity).
  split; [reflexivity|]. split; [reflexivity|]. split; [exact Hu|].
  exact (proj1 (unboxCase_invalid_payload Sample.info Counterfeit.catalog
                  Sample.pick Sample.entropy Sample.reliable "crate-7"
                  Counterfeit.shady Sample.returning eq_refl eq_refl Hu)).
Defined.

Lemma returning_ids_fresh : ids_fresh Sample.returning.
Proof.
  split.
  - change (NoDup [2; 4; 1; 3]).
    repeat (apply NoDup_cons; split;
            [intros H; repeat (apply elem_of_cons in H as [H|H]; [discriminate H|]);
             inversion H|]).
    apply NoDup_nil_2.
  - intros r Hr. unfold Sample.returning in Hr. cbn [table] in Hr.
    repeat (apply elem_of_cons in Hr as [->|Hr]; [cbn; lia|]).
    inversion Hr.
Qed.

(** X7 on the four stored rows. *)
Lemma ids_stay_fresh_witness :
  ids_fresh Sample.returning
  /\ ids_fresh (snd (served Sample.reliable
                       (unboxCase Sample.info Sample.catalog Sample.pick
                          Sample.entropy "crate-4001") Sample.returning))
  /\ ids_fresh (snd (addItemsToDB Sample.entropy Sample.reliable
                       [ {| caseData := Sample.info Sample.bravo;
                            itemData := Sample.doppler |};
                         {| caseData := Sample.info Sample.bravo;
                            itemData := Sample.gloves |} ]
                       Sample.returning)).
Proof.
  split; [exact returning_ids_fresh|].
  pose proof (ids_stay_fresh Sample.info Sample.catalog Sample.pick Sample.entropy
                Sample.reliable "crate-4001" Sample.bravo Sample.doppler
                [ {| caseData := Sample.info Sample.bravo;
                     itemData := Sample.doppler |};
                  {| caseData := Sample.info Sample.bravo;
                     itemData := Sample.gloves |} ]
                None None Sample.returning returning_ids_fresh) as H.
  rewrite !Forall_cons in H. destruct H as (_ & Hs & _ & Hb & _).
  split; [exact Hs | exact Hb].
Defined.


(** X9 on the four stored rows, for the visitor's rows. *)
Lemma rows_and_total_agree_witness :
  Sample.reliable (db_calls Sample.returning) = false
  /\ exists rows n,
       fst (getItemsFromDB Sample.entropy Sample.reliable None (Some true)
              Sample.returning) = Ret (Value rows)
       /\ fst (getTotalItemsFromDB Sample.entropy Sample.reliable None (Some true)
                 Sample.returning) = Ret (Value n)
       /\ Z.of_nat (length rows) = Z.min 100 n.
Proof.
  split; [reflexivity|].
  destruct (rows_and_total_agree Sample.entropy Sample.reliable None (Some true)
              Sample.returning eq_refl) as (id & rows & _ & Hr & _ & Hn).
  destruct Hn as (n & Hn & Hmin); [right; reflexivity|].
  exists rows, n. auto.
Defined.

(** X10 on the four stored rows: ids 1 to 4, total 4. *)
Lemma unfiltered_total_bounds_count_witness :
  Sample.reliable (db_calls Sample.returning) = false
  /\ NoDup (row_id <$> table Sample.returning)
  /\ (forall r, r ∈ table Sample.returning -> 1 <= row_id r <= 4)
  /\ fst (getTotalItemsFromDB Sample.entropy Sample.reliable None None
            Sample.returning)
     = Ret (Value (Z.of_nat (length (table Sample.returning)))).
Proof.
  assert (Hb : forall r, r ∈ table Sample.returning -> 1 <= row_id r <= 4).
  { intros r Hr. unfold Sample.returning in Hr. cbn [table] in Hr.
    repeat (apply elem_of_cons in Hr as [->|Hr]; [cbn; lia|]).
    inversion Hr. }
  split; [reflexivity|]. split; [exact (proj1 returning_ids_fresh)|].
  split; [exact Hb|].
  destruct (unfiltered_total_bounds_count Sample.entropy Sample.reliable None None
              Sample.returning eq_refl eq_refl eq_refl (proj1 returning_ids_fresh))
    as (n & Hn & _ & Hdense).
  { intros r Hr. exact (proj1 (Hb r Hr)). }
  rewrite Hn, Hdense; [reflexivity|].
  intros r Hr. exact (proj2 (Hb r Hr)).
Defined.

(** X11 on the four stored rows: the new row has id 5 and comes first. *)
Lemma inserted_row_is_listed_first_witness :
  (forall r, r ∈ table Sample.returning -> row_id r < serial Sample.returning)
  /\ Sample.reliable (db_calls Sample.returning) = false
  /\ exists rest,
       fst (getItemsFromDB Sample.entropy Sample.reliable (Some true) (Some true)
              (snd (addItemToDB Sample.info Sample.entropy Sample.reliable
                      Sample.bravo Sample.doppler Sample.returning)))
       = Ret (Value (row_of 5 (Sample.info Sample.bravo) Sample.doppler
                       Sample.visitor :: rest)).
Proof.
  split; [exact (proj2 returning_ids_fresh)|]. split; [reflexivity|].
  destruct (inserted_row_is_listed_first Sample.info Sample.entropy Sample.reliable
              Sample.bravo Sample.doppler (Some true) (Some true) Sample.returning
              (proj2 returning_ids_fresh) eq_refl eq_refl eq_refl eq_refl)
    as (id & rest & Hid & _ & Hrows).
  { intros _. left. reflexivity. }
  vm_compute in Hid. injection Hid as <-.
  exists rest. exact Hrows.
Defined.

(** X13 on a batch of two and on the empty batch. *)
Lemma addItemsToDB_all_or_nothing_witness :
  let data :=
    [ {| caseData := Sample.info Sample.bravo; itemData := Sample.doppler |};
      {| caseData := Sample.info Sample.bravo; itemData := Sample.redline |} ] in
  (data <> [] /\ safeParse (z_array dataSchema) data = true
   /\ Sample.reliable (db_calls Sample.returning) = false)
  /\ table (snd (addItemsToDB Sample.entropy Sample.reliable data Sample.returning))
     = (table Sample.returning
        ++ [ row_of 5 (Sample.info Sample.bravo) Sample.doppler Sample.visitor;
             row_of 6 (Sample.info Sample.bravo) Sample.redline Sample.visitor ])%list
  /\ table (snd (addItemsToDB Sample.entropy Sample.reliable [] Sample.returning))
     = table Sample.returning.
Proof.
  intros data.
  assert (Hs : data <> [] /\ safeParse (z_array dataSchema) data = true
               /\ Sample.reliable (db_calls Sample.returning) = false)
    by (split; [discriminate | split; reflexivity]).
  split; [exact Hs|]. split.
  - destruct (addItemsToDB_all_or_nothing Sample.entropy Sample.reliable data
                Sample.returning) as (id & Hid & Hiff & Hyes & _).
    vm_compute in Hid. injection Hid as <-.
    exact (proj1 (Hyes (proj2 Hiff Hs))).
  - destruct (addItemsToDB_all_or_nothing Sample.entropy Sample.reliable []
                Sample.returning) as (id & _ & Hiff & _ & Hno).
    apply Hno. intros H. apply Hiff in H as (H & _). contradiction.
Defined.

(** X14 on a trusted and on a forged item. *)
Lemma addItemToDB_all_or_nothing_witness :
  (trusted_image (case_image (Sample.info Sample.bravo)) = true
   /\ trusted_image (item_image Sample.doppler) = true
   /\ Sample.reliable (db_calls Sample.returning) = false)
  /\ table (snd (addItemToDB Sample.info Sample.entropy Sample.reliable
                   Sample.bravo Sample.doppler Sample.returning))
     = (table Sample.returning
        ++ [row_of 5 (Sample.info Sample.bravo) Sample.doppler Sample.visitor])%list
  /\ trusted_image (item_image Sample.forged) = false
  /\ table (snd (addItemToDB Sample.info Sample.entropy Sample.reliable
                   Sample.bravo Sample.forged Sample.returning))
     = table Sample.returning.
Proof.
  assert (Hs : trusted_image (case_image (Sample.info Sample.bravo)) = true
               /\ trusted_image (item_image Sample.doppler) = true
               /\ Sample.reliable (db_calls Sample.returning) = false)
    by (repeat split; reflexivity).
  split; [exact Hs|]. split; [|split; [reflexivity|]].
  - destruct (addItemToDB_all_or_nothing Sample.info Sample.entropy Sample.reliable
                Sample.bravo Sample.doppler Sample.returning)
      as (id & Hid & Hiff & Hyes & _).
    vm_compute in Hid. injection Hid as <-.
    exact (proj1 (Hyes (proj2 Hiff Hs))).
  - destruct (addItemToDB_all_or_nothing Sample.info Sample.entropy Sample.reliable
                Sample.bravo Sample.forged Sample.returning)
      as (id & _ & Hiff & _ & Hno).
    apply Hno. intros H. apply Hiff in H as (_ & H & _). discriminate H.
Defined.

(** X15 on a first visit: both rows carry the identifier created by the
    first insert. *)
Lemma successive_inserts_share_identifier_witness :
  Sample.reliable (db_calls Sample.blank) = false
  /\ Sample.reliable (S (db_calls Sample.blank)) = false
  /\ table (snd (addItemToDB Sample.info Sample.entropy Sample.reliable
                   Sample.bravo Sample.gloves
                   (snd (addItemToDB Sample.info Sample.entropy Sample.reliable
                           Sample.bravo Sample.doppler Sample.blank))))
     = [ row_of 1 (Sample.info Sample.bravo) Sample.doppler
           "35c8ed5c-60c0-4cf3-957c-4a7fb979379e";
         row_of 2 (Sample.info Sample.bravo) Sample.gloves
           "35c8ed5c-60c0-4cf3-957c-4a7fb979379e" ].
Proof.
  split; [reflexivity|]. split; [reflexivity|].
  destruct (successive_inserts_share_identifier Sample.info Sample.entropy
              Sample.reliable Sample.bravo Sample.bravo Sample.doppler Sample.gloves
              Sample.blank eq_refl eq_refl eq_refl eq_refl eq_refl eq_refl)
    as (id & Hid & _ & Ht).
  vm_compute in Hid. injection Hid as <-. exact Ht.
Defined.

(** X16 on the four stored rows: two rows of the visitor before, three
    after. *)
Lemma personal_total_counts_new_row_witness :
  Sample.reliable (db_calls Sample.returning) = false
  /\ Sample.reliable (S (db_calls Sample.returning)) = false
  /\ fst (getTotalItemsFromDB Sample.entropy Sample.reliable None (Some true)
            (snd (addItemToDB Sample.info Sample.entropy Sample.reliable
                    Sample.bravo Sample.doppler Sample.returning)))
     = Ret (Value 3).
Proof.
  split; [reflexivity|]. split; [reflexivity|].
  destruct (personal_total_counts_new_row Sample.info Sample.entropy Sample.reliable
              Sample.bravo Sample.doppler None (Some true) Sample.returning
              eq_refl eq_refl eq_refl eq_refl eq_refl eq_refl) as (id & Hid & Hn).
  vm_compute in Hid. injection Hid as <-.
  rewrite Hn. vm_compute. reflexivity.
Defined.
